(** * Sentinel Vault: a shallow embedding of the client-side vault core

    Sources embedded here:
    - [src/lib/supabase.ts]: the cryptographic service ([bufferToBase64],
      [base64ToBuffer], [deriveKeys], [encrypt], [decrypt],
      [encryptVaultItem], [decryptVaultItem], [generatePassword],
      [estimatePasswordStrength], [generateSalt], [generateIV]); the pages
      import these from [@/lib/crypto], whose functions are the ones of this
      file;
    - [src/unnamed/part_000]: the zustand store [useVaultStore];
    - [src/app/vault/page.tsx]: [handleUnlock], [handleLock], the idle
      timer, [handleRevealPassword], [handleHidePassword],
      [handleToggleFavorite], [handleUpdateItem], [filteredItems], the
      [onAdd] callback and the delete dialog's Delete button;
    - [src/app/register/page.tsx]: [handleContinue], [handleRegister];
    - [src/app/login/page.tsx]: [handleLogin];
    - [src/components/vault/SettingsDialog.tsx]: [handleDeleteAccount].

    The browser built-ins the code calls (Web Crypto, TextEncoder and
    TextDecoder, btoa and atob, JSON) are not code of the repository; they
    are the fields of the class [Runtime].  Their laws, where a theorem needs
    them, are stated as hypotheses. *)

From Stdlib Require Import ZArith List Lia Bool String Ascii.
Import ListNotations.
Open Scope Z_scope.

(** ** JS values *)

(** A JS string is a sequence of UTF-16 code units. *)
Definition jsstring := list Z.

(** A string literal of the source (all of them are ASCII). *)
Definition lit (s : string) : jsstring :=
  map (fun a => Z.of_nat (nat_of_ascii a)) (list_ascii_of_string s).

Definition is_byte (z : Z) : Prop := 0 <= z < 256.

(** Errors thrown along the embedded code paths. *)
Inductive js_error :=
  | OperationError          (* Web Crypto rejected the operation *)
  | InvalidCharacterError   (* btoa / atob on a bad input *)
  | SyntaxError             (* JSON.parse on a bad input *)
  | NotAuthenticated        (* "Not authenticated" *)
  | AccountLocked (minutes : Z) (* "Account locked. Try again in N minutes." *)
  | StoreError.             (* a Supabase call failed *)

Inductive result (A : Type) :=
  | Ok (a : A)
  | Err (e : js_error).
Arguments Ok {A} a.
Arguments Err {A} e.

Definition bind {A B} (m : result A) (k : A -> result B) : result B :=
  match m with Ok a => k a | Err e => Err e end.

Notation "'let*' x ':=' m 'in' k" := (bind m (fun x => k))
  (at level 200, x name, m at level 100, k at level 200).

(** A rejected promise of a built-in, as a thrown error. *)
Definition or_throw {A} (e : js_error) (o : option A) : result A :=
  match o with Some a => Ok a | None => Err e end.

(** ** The vault item payload ([VaultItemPayload]) *)

Record VaultItemPayload := {
  username : jsstring;
  password : jsstring;
  url : option jsstring;
  notes : option jsstring
}.

(** ** The runtime: the built-ins the code calls *)

Class Runtime := {
  CryptoKey : Type;
  Pbkdf2Key : Type;
  (** [crypto.subtle.importKey("raw", bytes, {name:"PBKDF2"}, ...)] *)
  importPbkdf2Key : list Z -> option Pbkdf2Key;
  (** [crypto.subtle.deriveBits({name:"PBKDF2", salt, iterations, hash}, key, bits)] *)
  deriveBitsPbkdf2 : Pbkdf2Key -> list Z -> Z -> string -> Z -> option (list Z);
  (** [crypto.subtle.importKey("raw", bytes, {name:"AES-GCM", length}, ...)] *)
  importAesGcmKey : list Z -> Z -> option CryptoKey;
  (** [crypto.subtle.digest(hash, bytes)] *)
  digest : string -> list Z -> option (list Z);
  (** [crypto.subtle.encrypt({name:"AES-GCM", iv}, key, data)] *)
  aesGcmEncrypt : CryptoKey -> list Z -> list Z -> option (list Z);
  (** [crypto.subtle.decrypt({name:"AES-GCM", iv}, key, data)] *)
  aesGcmDecrypt : CryptoKey -> list Z -> list Z -> option (list Z);
  (** [new TextEncoder().encode] and [new TextDecoder().decode] *)
  textEncode : jsstring -> list Z;
  textDecode : list Z -> jsstring;
  btoa : jsstring -> option jsstring;
  atob : jsstring -> option jsstring;
  (** [JSON.stringify] of a payload, [JSON.parse] read back as a payload *)
  jsonStringify : VaultItemPayload -> jsstring;
  jsonParse : jsstring -> option VaultItemPayload
}.

(** ** The cryptographic service ([src/lib/supabase.ts]) *)

Definition PBKDF2_ITERATIONS : Z := 600000.
Definition SALT_LENGTH : nat := 16.
Definition IV_LENGTH : nat := 12.
Definition KEY_LENGTH : Z := 256.

(** [Uint8Array.prototype.slice(b, e)] for [0 <= b <= e]. *)
Definition slice (b e : nat) (l : list Z) : list Z := firstn (e - b) (skipn b l).

Section CryptoService.
Context `{Runtime}.

(** [bufferToBase64]: each byte becomes the code unit [String.fromCharCode(b)],
    then [btoa]. *)
Definition bufferToBase64 (bytes : list Z) : result jsstring :=
  or_throw InvalidCharacterError (btoa bytes).

(** [base64ToBuffer]: [atob], then each code unit stored into a [Uint8Array]
    (which keeps it modulo 256). *)
Definition base64ToBuffer (b64 : jsstring) : result (list Z) :=
  let* binary := or_throw InvalidCharacterError (atob b64) in
  Ok (map (fun c => c mod 256) binary).

(** [deriveKeys(password, saltBase64)] *)
Definition deriveKeys (pw : jsstring) (saltBase64 : jsstring)
    : result (CryptoKey * jsstring) :=
  let* passwordKey := or_throw OperationError (importPbkdf2Key (textEncode pw)) in
  let* salt := base64ToBuffer saltBase64 in
  let* keyBytes := or_throw OperationError
       (deriveBitsPbkdf2 passwordKey salt PBKDF2_ITERATIONS "SHA-256" 512) in
  let encryptionKeyBytes := slice 0 32 keyBytes in
  let verificationKeyBytes := slice 32 64 keyBytes in
  let* encryptionKey := or_throw OperationError
       (importAesGcmKey encryptionKeyBytes KEY_LENGTH) in
  let* verificationHash := or_throw OperationError
       (digest "SHA-256" verificationKeyBytes) in
  let* verificationKey := bufferToBase64 verificationHash in
  Ok (encryptionKey, verificationKey).

(** [deriveEncryptionKey(password, saltBase64)] *)
Definition deriveEncryptionKey (pw saltBase64 : jsstring) : result CryptoKey :=
  let* keys := deriveKeys pw saltBase64 in Ok (fst keys).

(** [encrypt(plaintext, key, ivBase64?)].  [ivBase64 = None] is [undefined];
    an empty string is falsy too.  [rnd] is what
    [crypto.getRandomValues(new Uint8Array(IV_LENGTH))] fills in. *)
Definition encrypt (plaintext : jsstring) (key : CryptoKey)
    (ivBase64 : option jsstring) (rnd : list Z) : result (jsstring * jsstring) :=
  let* iv := match ivBase64 with
             | Some ((_ :: _) as s) => base64ToBuffer s
             | _ => Ok rnd
             end in
  let encodedData := textEncode plaintext in
  let* encrypted := or_throw OperationError (aesGcmEncrypt key iv encodedData) in
  let* ciphertext := bufferToBase64 encrypted in
  let* ivOut := bufferToBase64 iv in
  Ok (ciphertext, ivOut).

(** [decrypt(ciphertextBase64, ivBase64, key)] *)
Definition decrypt (ciphertextBase64 ivBase64 : jsstring) (key : CryptoKey)
    : result jsstring :=
  let* ciphertext := base64ToBuffer ciphertextBase64 in
  let* iv := base64ToBuffer ivBase64 in
  let* decrypted := or_throw OperationError (aesGcmDecrypt key iv ciphertext) in
  Ok (textDecode decrypted).

(** [encryptVaultItem(payload, key)] *)
Definition encryptVaultItem (payload : VaultItemPayload) (key : CryptoKey)
    (rnd : list Z) : result (jsstring * jsstring) :=
  encrypt (jsonStringify payload) key None rnd.

(** [decryptVaultItem(ciphertextBase64, ivBase64, key)] *)
Definition decryptVaultItem (ciphertextBase64 ivBase64 : jsstring)
    (key : CryptoKey) : result VaultItemPayload :=
  let* decrypted := decrypt ciphertextBase64 ivBase64 key in
  or_throw SyntaxError (jsonParse decrypted).

End CryptoService.

(** ** The password generator and the strength estimate *)

Record PasswordOptions := {
  length_opt : nat;
  includeUppercase : bool;
  includeLowercase : bool;
  includeNumbers : bool;
  includeSymbols : bool
}.

Definition uppercase : jsstring := lit "ABCDEFGHIJKLMNOPQRSTUVWXYZ".
Definition lowercase : jsstring := lit "abcdefghijklmnopqrstuvwxyz".
Definition numbers : jsstring := lit "0123456789".
Definition symbols : jsstring := lit "!@#$%^&*()_+-=[]{}|;:,.<>?".

(** The charset built from the options, with the lowercase+digits fallback. *)
Definition charsetOf (o : PasswordOptions) : jsstring :=
  let charset := (if includeUppercase o then uppercase else [])
              ++ (if includeLowercase o then lowercase else [])
              ++ (if includeNumbers o then numbers else [])
              ++ (if includeSymbols o then symbols else []) in
  match charset with
  | [] => lowercase ++ numbers
  | _ => charset
  end.

(** [generatePassword(options)].  [rnd i] is the [i]-th 32-bit word that
    [crypto.getRandomValues(new Uint32Array(length))] writes. *)
Definition generatePassword (o : PasswordOptions) (rnd : nat -> Z) : jsstring :=
  let charset := charsetOf o in
  let randomValues := map rnd (seq 0 (length_opt o)) in
  map (fun v => nth (Z.to_nat (v mod Z.of_nat (List.length charset))) charset 0)
      randomValues.

Definition in_range (lo hi c : Z) : bool := (lo <=? c) && (c <=? hi).

(** The regular expressions [/[a-z]/], [/[A-Z]/], [/[0-9]/], [/[^a-zA-Z0-9]/]. *)
Definition re_lower (s : jsstring) : bool := existsb (in_range 97 122) s.
Definition re_upper (s : jsstring) : bool := existsb (in_range 65 90) s.
Definition re_digit (s : jsstring) : bool := existsb (in_range 48 57) s.
Definition re_symbol (s : jsstring) : bool :=
  existsb (fun c => negb (in_range 97 122 c || in_range 65 90 c || in_range 48 57 c)) s.

(** [estimatePasswordStrength(password)] *)
Definition estimatePasswordStrength (pw : jsstring) : Z :=
  let len := Z.of_nat (List.length pw) in
  let score := 0 in
  let score := if len >=? 8 then score + 10 else score in
  let score := if len >=? 12 then score + 10 else score in
  let score := if len >=? 16 then score + 10 else score in
  let score := if len >=? 20 then score + 10 else score in
  let score := if re_lower pw then score + 10 else score in
  let score := if re_upper pw then score + 10 else score in
  let score := if re_digit pw then score + 10 else score in
  let score := if re_symbol pw then score + 20 else score in
  let score := if (len >=? 16) && re_lower pw && re_upper pw && re_digit pw
                  && re_symbol pw then score + 20 else score in
  Z.min score 100.

(** The scoring rule as the spec words it, to be compared with the code:
    10 points per length threshold reached (8, 12, 16, 20), 10 each for a
    lowercase, uppercase and digit character, 20 for a symbol, a 20-point
    bonus when all four classes occur and the length is at least 16, the
    total capped at 100. *)
Definition strength_spec (pw : jsstring) : Z :=
  let len := Z.of_nat (List.length pw) in
  let length_points :=
    10 * Z.of_nat (List.length (filter (fun t => t <=? len) [8; 12; 16; 20])) in
  let class_points :=
    (if re_lower pw then 10 else 0) + (if re_upper pw then 10 else 0)
    + (if re_digit pw then 10 else 0) + (if re_symbol pw then 20 else 0) in
  let bonus :=
    if (16 <=? len) && re_lower pw && re_upper pw && re_digit pw && re_symbol pw
    then 20 else 0 in
  Z.min (length_points + class_points + bonus) 100.

(** ** The session store ([useVaultStore], [src/unnamed/part_000]) *)

Module VaultStore.

Record VaultItem := {
  id : jsstring;
  title : jsstring;
  ciphertext : jsstring;
  iv : jsstring;
  auth_tag : jsstring;
  category_id : option jsstring;
  is_favorite : bool;
  last_accessed : jsstring;
  last_modified : jsstring;
  created_at : jsstring
}.

Record Category := {
  cat_id : jsstring;
  name : jsstring;
  icon : jsstring;
  color : jsstring;
  sort_order : Z
}.

(** [interface DecryptedVaultItem extends VaultItem] *)
Record DecryptedVaultItem := {
  base :> VaultItem;
  username : jsstring;
  password : jsstring;
  url : option jsstring;
  notes : option jsstring
}.

(** [Partial<DecryptedVaultItem>]: [None] is an absent property. *)
Record PartialDecryptedVaultItem := {
  p_id : option jsstring;
  p_title : option jsstring;
  p_ciphertext : option jsstring;
  p_iv : option jsstring;
  p_auth_tag : option jsstring;
  p_category_id : option (option jsstring);
  p_is_favorite : option bool;
  p_last_accessed : option jsstring;
  p_last_modified : option jsstring;
  p_created_at : option jsstring;
  p_username : option jsstring;
  p_password : option jsstring;
  p_url : option (option jsstring);
  p_notes : option (option jsstring)
}.

Definition override {A} (o : option A) (a : A) : A :=
  match o with Some b => b | None => a end.

(** [{ ...item, ...updates }] *)
Definition spread (it : DecryptedVaultItem) (u : PartialDecryptedVaultItem)
    : DecryptedVaultItem :=
  {| base := {| id := override (p_id u) (id it);
                title := override (p_title u) (title it);
                ciphertext := override (p_ciphertext u) (ciphertext it);
                iv := override (p_iv u) (iv it);
                auth_tag := override (p_auth_tag u) (auth_tag it);
                category_id := override (p_category_id u) (category_id it);
                is_favorite := override (p_is_favorite u) (is_favorite it);
                last_accessed := override (p_last_accessed u) (last_accessed it);
                last_modified := override (p_last_modified u) (last_modified it);
                created_at := override (p_created_at u) (created_at it) |};
     username := override (p_username u) (username it);
     password := override (p_password u) (password it);
     url := override (p_url u) (url it);
     notes := override (p_notes u) (notes it) |}.

Definition jsstring_eqb (a b : jsstring) : bool :=
  if list_eq_dec Z.eq_dec a b then true else false.

Section Store.
Context `{Runtime}.

Record VaultState := {
  isAuthenticated : bool;
  userId : option jsstring;
  email : option jsstring;
  encryptionKey : option CryptoKey;
  salt : option jsstring;
  isUnlocked : bool;
  items : list DecryptedVaultItem;
  categories : list Category;
  isLoading : bool;
  error : option jsstring;
  autoLockMinutes : Z;
  clearClipboardSeconds : Z
}.

Definition initialState : VaultState :=
  {| isAuthenticated := false; userId := None; email := None;
     encryptionKey := None; salt := None; isUnlocked := false;
     items := []; categories := []; isLoading := false; error := None;
     autoLockMinutes := 5; clearClipboardSeconds := 30 |}.

(** The actions; [SetUnlocked] takes a [CryptoKey] and a [string], not
    nullable ones, as [setUnlocked: (key: CryptoKey, salt: string)] does. *)
Inductive VaultAction :=
  | SetAuthenticated (uid em : jsstring)
  | SetUnlocked (key : CryptoKey) (s : jsstring)
  | SetVaultData (its : list DecryptedVaultItem) (cats : list Category)
  | AddItem (it : DecryptedVaultItem)
  | UpdateItem (i : jsstring) (updates : PartialDecryptedVaultItem)
  | RemoveItem (i : jsstring)
  | SetPreferences (alm ccs : Z)
  | SetLoading (b : bool)
  | SetError (e : option jsstring)
  | LockVault
  | Logout.

(** [set(partial)] merges [partial] into the state. *)
Definition step (s : VaultState) (a : VaultAction) : VaultState :=
  match a with
  | SetAuthenticated uid em =>
      {| isAuthenticated := true; userId := Some uid; email := Some em;
         encryptionKey := encryptionKey s; salt := salt s; isUnlocked := isUnlocked s;
         items := items s; categories := categories s; isLoading := isLoading s;
         error := error s; autoLockMinutes := autoLockMinutes s;
         clearClipboardSeconds := clearClipboardSeconds s |}
  | SetUnlocked key sa =>
      {| isAuthenticated := isAuthenticated s; userId := userId s; email := email s;
         encryptionKey := Some key; salt := Some sa; isUnlocked := true;
         items := items s; categories := categories s; isLoading := isLoading s;
         error := error s; autoLockMinutes := autoLockMinutes s;
         clearClipboardSeconds := clearClipboardSeconds s |}
  | SetVaultData its cats =>
      {| isAuthenticated := isAuthenticated s; userId := userId s; email := email s;
         encryptionKey := encryptionKey s; salt := salt s; isUnlocked := isUnlocked s;
         items := its; categories := cats; isLoading := isLoading s;
         error := error s; autoLockMinutes := autoLockMinutes s;
         clearClipboardSeconds := clearClipboardSeconds s |}
  | AddItem it =>
      {| isAuthenticated := isAuthenticated s; userId := userId s; email := email s;
         encryptionKey := encryptionKey s; salt := salt s; isUnlocked := isUnlocked s;
         items := it :: items s; categories := categories s; isLoading := isLoading s;
         error := error s; autoLockMinutes := autoLockMinutes s;
         clearClipboardSeconds := clearClipboardSeconds s |}
  | UpdateItem i u =>
      {| isAuthenticated := isAuthenticated s; userId := userId s; email := email s;
         encryptionKey := encryptionKey s; salt := salt s; isUnlocked := isUnlocked s;
         items := map (fun it : DecryptedVaultItem => if jsstring_eqb (id it) i then spread it u else it)
                      (items s);
         categories := categories s; isLoading := isLoading s;
         error := error s; autoLockMinutes := autoLockMinutes s;
         clearClipboardSeconds := clearClipboardSeconds s |}
  | RemoveItem i =>
      {| isAuthenticated := isAuthenticated s; userId := userId s; email := email s;
         encryptionKey := encryptionKey s; salt := salt s; isUnlocked := isUnlocked s;
         items := filter (fun it : DecryptedVaultItem => negb (jsstring_eqb (id it) i)) (items s);
         categories := categories s; isLoading := isLoading s;
         error := error s; autoLockMinutes := autoLockMinutes s;
         clearClipboardSeconds := clearClipboardSeconds s |}
  | SetPreferences alm ccs =>
      {| isAuthenticated := isAuthenticated s; userId := userId s; email := email s;
         encryptionKey := encryptionKey s; salt := salt s; isUnlocked := isUnlocked s;
         items := items s; categories := categories s; isLoading := isLoading s;
         error := error s; autoLockMinutes := alm; clearClipboardSeconds := ccs |}
  | SetLoading b =>
      {| isAuthenticated := isAuthenticated s; userId := userId s; email := email s;
         encryptionKey := encryptionKey s; salt := salt s; isUnlocked := isUnlocked s;
         items := items s; categories := categories s; isLoading := b;
         error := error s; autoLockMinutes := autoLockMinutes s;
         clearClipboardSeconds := clearClipboardSeconds s |}
  | SetError e =>
      {| isAuthenticated := isAuthenticated s; userId := userId s; email := email s;
         encryptionKey := encryptionKey s; salt := salt s; isUnlocked := isUnlocked s;
         items := items s; categories := categories s; isLoading := isLoading s;
         error := e; autoLockMinutes := autoLockMinutes s;
         clearClipboardSeconds := clearClipboardSeconds s |}
  | LockVault =>
      {| isAuthenticated := isAuthenticated s; userId := userId s; email := email s;
         encryptionKey := None; salt := None; isUnlocked := false;
         items := []; categories := categories s; isLoading := isLoading s;
         error := error s; autoLockMinutes := autoLockMinutes s;
         clearClipboardSeconds := clearClipboardSeconds s |}
  | Logout =>
      {| isAuthenticated := false; userId := None; email := None;
         encryptionKey := None; salt := None; isUnlocked := false;
         items := []; categories := []; isLoading := isLoading s;
         error := error s; autoLockMinutes := autoLockMinutes s;
         clearClipboardSeconds := clearClipboardSeconds s |}
  end.

(** The state after a sequence of actions. *)
Definition run (s : VaultState) (acts : list VaultAction) : VaultState :=
  fold_left step acts s.

End Store.
End VaultStore.

(** ** The unlock handler ([handleUnlock], [src/app/vault/page.tsx]) *)

Module UnlockPage.
Import VaultStore.

(** The [profiles] row; [failed_unlock_locked_until] is the parsed timestamp
    in milliseconds, [None] for [null]. *)
Record Profile := {
  kdf_salt : jsstring;
  verifier_hash : jsstring;
  failed_unlock_attempts : Z;
  failed_unlock_locked_until : option Z
}.

(** The fields [updateProfile] can write for the lockout. *)
Record ProfileUpdate := {
  upd_failed_unlock_attempts : option Z;
  upd_failed_unlock_locked_until : option (option Z)
}.

(** The calls to the record store. *)
Inductive RemoteCall :=
  | GetProfile (uid : jsstring)
  | GetVaultItems (uid : jsstring)
  | UpdateProfile (uid : jsstring) (u : ProfileUpdate).

(** What the store and the clock answer during one call of the handler:
    [env_now] is the [new Date()] of the lock test, [env_now2] the later
    [Date.now()] the minutes are computed from. *)
Record UnlockEnv := {
  env_profile : result Profile;
  env_vaultItems : result (list VaultItem);
  env_now : Z;
  env_now2 : Z
}.

Section Unlock.
Context `{Runtime}.

(** The page: the store plus the component's own [useState] cells. *)
Record PageState := {
  store : VaultState;
  showPassword : jsstring;
  loading : bool;
  pageError : option js_error
}.

(** The lock check: [Some minutes] when [lockedUntil > new Date()] at the
    first clock read [now]; the minutes are
    [Math.ceil((lockedUntil - Date.now()) / 60000)] at the second read
    [now2] ([(x + 59999) / 60000], rounded down, is the ceiling of
    [x / 60000] for every integer [x]). *)
Definition lockedFor (p : Profile) (now now2 : Z) : option Z :=
  match failed_unlock_locked_until p with
  | Some lockedUntil =>
      if now <? lockedUntil then Some ((lockedUntil - now2 + 59999) / 60000)
      else None
  | None => None
  end.

(** The decryption loop: items that fail to decrypt are skipped. *)
Fixpoint decryptAll (key : CryptoKey) (rows : list VaultItem)
    : list DecryptedVaultItem :=
  match rows with
  | [] => []
  | row :: rest =>
      match decryptVaultItem (ciphertext row) (iv row) key with
      | Ok (Build_VaultItemPayload u p ur n) =>
          {| base := row; username := u; password := p; url := ur; notes := n |}
            :: decryptAll key rest
      | Err _ => decryptAll key rest
      end
  end.

(** The body of the [try] block: the calls made and its outcome. *)
Definition unlockBody (st : VaultState) (pw : jsstring) (env : UnlockEnv)
    : list RemoteCall * result VaultState :=
  match userId st with
  | None => ([], Err NotAuthenticated)
  | Some [] => ([], Err NotAuthenticated)  (* [!userId] holds for the empty string *)
  | Some uid =>
      match env_profile env with
      | Err e => ([GetProfile uid], Err e)
      | Ok profile =>
          match lockedFor profile (env_now env) (env_now2 env) with
          | Some minutes => ([GetProfile uid], Err (AccountLocked minutes))
          | None =>
              match deriveEncryptionKey pw (kdf_salt profile) with
              | Err e => ([GetProfile uid], Err e)
              | Ok key =>
                  match env_vaultItems env with
                  | Err e => ([GetProfile uid; GetVaultItems uid], Err e)
                  | Ok vaultItems =>
                      let decryptedItems := decryptAll key vaultItems in
                      let st1 := step st (SetUnlocked key (kdf_salt profile)) in
                      let st2 := step st1 (SetVaultData decryptedItems []) in
                      ([GetProfile uid; GetVaultItems uid], Ok st2)
                  end
              end
          end
      end
  end.

(** [handleUnlock]: the [try]/[catch]/[finally] around [unlockBody]. *)
Definition handleUnlock (p : PageState) (env : UnlockEnv)
    : PageState * list RemoteCall :=
  let (calls, r) := unlockBody (store p) (showPassword p) env in
  match r with
  | Ok st' =>
      ({| store := st'; showPassword := []; loading := false; pageError := None |},
       calls)
  | Err e =>
      ({| store := store p; showPassword := showPassword p; loading := false;
          pageError := Some e |}, calls)
  end.

End Unlock.
End UnlockPage.

(** ** Laws of the built-ins *)

(** Flip bit [j] of byte [i]; out of range, nothing changes. *)
Fixpoint flip_bit (l : list Z) (i : nat) (j : Z) : list Z :=
  match l, i with
  | [], _ => []
  | b :: rest, O => Z.lxor b (2 ^ j) :: rest
  | b :: rest, S i' => b :: flip_bit rest i' j
  end.

(** What the code relies on from the browser: base64 of bytes round-trips,
    AES-GCM decrypts what it encrypts, and byte outputs are bytes. *)
Class RuntimeLaws `{Runtime} := {
  btoa_atob : forall s, Forall is_byte s ->
    exists b, btoa s = Some b /\ atob b = Some s;
  aes_roundtrip : forall k iv m c,
    aesGcmEncrypt k iv m = Some c -> aesGcmDecrypt k iv c = Some m;
  aes_bytes : forall k iv m c, Forall is_byte iv -> Forall is_byte m ->
    aesGcmEncrypt k iv m = Some c -> Forall is_byte c;
  textEncode_bytes : forall s, Forall is_byte (textEncode s)
}.

(** The ideal-AEAD reading of AES-GCM: decryption accepts only genuine
    ciphertexts, a ciphertext is genuine for one key and nonce only, and no
    two genuine ciphertexts for one key and nonce differ in a single bit. *)
Class IdealAead `{Runtime} := {
  aes_auth : forall k iv c m,
    aesGcmDecrypt k iv c = Some m -> aesGcmEncrypt k iv m = Some c;
  aes_binding : forall k k' iv iv' m m' c,
    aesGcmEncrypt k iv m = Some c -> aesGcmEncrypt k' iv' m' = Some c ->
    k = k' /\ iv = iv';
  aes_distance : forall k iv m m' c i j,
    aesGcmEncrypt k iv m = Some c -> (i < List.length c)%nat -> 0 <= j < 8 ->
    aesGcmEncrypt k iv m' <> Some (flip_bit c i j)
}.

(** ** A concrete runtime, to run the handlers on examples

    Keys are booleans; the "cipher" writes the key, the nonce and the
    plaintext twice, so that it meets [RuntimeLaws] and [IdealAead]. *)
Module Mock.

Definition key_byte (k : bool) : Z := if k then 1 else 0.

Definition list_eqb (a b : list Z) : bool :=
  if list_eq_dec Z.eq_dec a b then true else false.

Definition mock_encrypt (k : bool) (iv m : list Z) : option (list Z) :=
  if Nat.eqb (List.length iv) 12 then Some (key_byte k :: iv ++ m ++ m) else None.

Definition mock_decrypt (k : bool) (iv c : list Z) : option (list Z) :=
  match c with
  | [] => None
  | b :: rest =>
      let body := skipn 12 rest in
      let n := (List.length body / 2)%nat in
      if (b =? key_byte k) && Nat.eqb (List.length iv) 12
         && list_eqb (firstn 12 rest) iv
         && list_eqb (firstn n body) (skipn n body)
      then Some (firstn n body) else None
  end.

Definition is_byteb (z : Z) : bool := (0 <=? z) && (z <? 256).

#[export] Instance mockRuntime : Runtime := {
  CryptoKey := bool;
  Pbkdf2Key := list Z;
  importPbkdf2Key b := Some b;
  deriveBitsPbkdf2 pk s _ _ _ := Some (firstn 64 (pk ++ s ++ repeat 0 64));
  importAesGcmKey b _ := Some (match b with x :: _ => Z.odd x | [] => false end);
  digest _ b := Some b;
  aesGcmEncrypt := mock_encrypt;
  aesGcmDecrypt := mock_decrypt;
  textEncode s := map (fun c => c mod 256) s;
  textDecode b := b;
  btoa s := if forallb is_byteb s then Some s else None;
  atob s := Some s;
  jsonStringify p := username p;
  jsonParse s := Some {| username := s; password := []; url := None; notes := None |}
}.

End Mock.

(** ** Example data for the concrete runs *)

Module Examples.
Import VaultStore UnlockPage Mock.

Definition payload0 : VaultItemPayload :=
  Build_VaultItemPayload (lit "u@example.com") [] None None.

(** The nonce drawn for the example seal. *)
Definition rnd0 : list Z := repeat 7 12.

(** The registration password and a wrong one; under [mockRuntime] they
    derive the keys [false] and [true]. *)
Definition goodPw : jsstring := lit "VeryStrongPass123!!".
Definition wrongPw : jsstring := lit "WrongPass1!!".
Definition salt0 : jsstring := lit "0123456789abcdef".

(** The item sealed at registration time, under the key of [goodPw]. *)
Definition sealed0 : jsstring * jsstring :=
  match @encryptVaultItem mockRuntime payload0 false rnd0 with
  | Ok out => out
  | Err _ => ([], [])
  end.

Definition row0 : VaultItem :=
  {| id := lit "item-1"; title := lit "Example"; ciphertext := fst sealed0;
     iv := snd sealed0; auth_tag := []; category_id := None; is_favorite := false;
     last_accessed := []; last_modified := []; created_at := [] |}.

Definition profile0 : Profile :=
  {| kdf_salt := salt0; verifier_hash := []; failed_unlock_attempts := 0;
     failed_unlock_locked_until := None |}.

Definition env0 : UnlockEnv :=
  {| env_profile := Ok profile0; env_vaultItems := Ok [row0]; env_now := 1000;
     env_now2 := 1000 |}.

(** An authenticated, locked session whose unlock form holds [pw]. *)
Definition page0 (pw : jsstring) : @PageState mockRuntime :=
  {| store := step initialState (SetAuthenticated (lit "user-1") (lit "a@b.c"));
     showPassword := pw; loading := false; pageError := None |}.

(** A profile locked until [t = 5000000] ms, read at [now = 1000] ms. *)
Definition envLocked : UnlockEnv :=
  {| env_profile := Ok {| kdf_salt := salt0; verifier_hash := [];
                          failed_unlock_attempts := 5;
                          failed_unlock_locked_until := Some 5000000 |};
     env_vaultItems := Ok [row0]; env_now := 1000; env_now2 := 1000 |}.

(** An 8-byte salt. *)
Definition shortSalt : jsstring := lit "salt1234".

Definition allClasses20 : PasswordOptions :=
  {| length_opt := 20; includeUppercase := true; includeLowercase := true;
     includeNumbers := true; includeSymbols := true |}.

End Examples.

(** ** Random salts and nonces ([generateSalt], [generateIV]) *)

Section RandomValues.
Context `{Runtime}.

(** [generateSalt()]: [rnd] is what
    [crypto.getRandomValues(new Uint8Array(SALT_LENGTH))] fills in. *)
Definition generateSalt (rnd : list Z) : result jsstring := bufferToBase64 rnd.

(** [generateIV()]: [rnd] is what
    [crypto.getRandomValues(new Uint8Array(IV_LENGTH))] fills in. *)
Definition generateIV (rnd : list Z) : result jsstring := bufferToBase64 rnd.

End RandomValues.

(** The score of [estimatePasswordStrength] before the cap, from the length
    and the four regular-expression tests, in the code's order. *)
Definition strength_points (len : Z) (lo up dg sy : bool) : Z :=
  let score := 0 in
  let score := if len >=? 8 then score + 10 else score in
  let score := if len >=? 12 then score + 10 else score in
  let score := if len >=? 16 then score + 10 else score in
  let score := if len >=? 20 then score + 10 else score in
  let score := if lo then score + 10 else score in
  let score := if up then score + 10 else score in
  let score := if dg then score + 10 else score in
  let score := if sy then score + 20 else score in
  let score := if (len >=? 16) && lo && up && dg && sy then score + 20 else score in
  score.

(** Whether an action is [setUnlocked]. *)
Definition isSetUnlocked `{Runtime} (a : VaultStore.VaultAction) : bool :=
  match a with VaultStore.SetUnlocked _ _ => true | _ => false end.

(** ** The registration and sign-in pages
    ([src/app/register/page.tsx], [src/app/login/page.tsx]) *)

Module AuthPages.

(** The [profiles] row [handleRegister] upserts. *)
Record ProfileRow := {
  row_id : jsstring;
  row_email : jsstring;
  row_kdf_salt : jsstring;
  row_verifier_hash : jsstring;
  row_auto_lock_minutes : Z;
  row_clear_clipboard_seconds : Z;
  row_created_at : jsstring
}.

(** The calls to Supabase from the two pages. *)
Inductive AuthCall :=
  | SignUp (email password : jsstring)
  | SignUpWithMetadata (email password kdf_salt : jsstring)
  | UpsertProfile (row : ProfileRow)
  | RpcGetUserSalt (email : jsstring)
  | SignInWithPassword (email password : jsstring).

(** What ends up in the page's error box: a message the page writes itself,
    or an error thrown by a built-in or by Supabase (whose text is not
    modelled). *)
Inductive page_error :=
  | Message (msg : jsstring)
  | Thrown (e : js_error).

Inductive ContinueOutcome :=
  | ContinueError (msg : jsstring)
  | GoToWarning.

(** [handleContinue] of the registration form; [passwordStrength] is
    [estimatePasswordStrength(password)], computed at render time. *)
Definition handleContinue (password confirmPassword : jsstring) : ContinueOutcome :=
  let passwordStrength := estimatePasswordStrength password in
  if negb (VaultStore.jsstring_eqb password confirmPassword) then
    ContinueError (lit "Passwords do not match")
  else if (List.length password <? 12)%nat then
    ContinueError (lit "Password must be at least 12 characters")
  else if passwordStrength <? 50 then
    ContinueError (lit "Please choose a stronger password")
  else GoToWarning.

(** What Supabase and the clock answer during [handleRegister]. *)
Record RegisterEnv := {
  env_saltBytes : list Z;                 (* the draw inside [generateSalt] *)
  env_signUp : result (option jsstring);  (* [authError], or [authData.user?.id] *)
  env_upsert : result unit;               (* [profileError] *)
  env_createdAt : jsstring                (* [new Date().toISOString()] *)
}.

(** What Supabase answers during [handleLogin]. *)
Record LoginEnv := {
  env_userSalt : result (option jsstring); (* [rpc("get_user_salt")]: error or data *)
  env_signIn : result unit                 (* [signInWithPassword]'s error *)
}.

Section Pages.
Context `{Runtime}.

(** [handleRegister] of the second version of the page (the one at lines
    478-529): the calls made and the error left on the page
    ([None] when it redirects to the sign-in page). *)
Definition handleRegister (confirmedUnderstand : bool) (email password : jsstring)
    (env : RegisterEnv) : list AuthCall * option page_error :=
  if negb confirmedUnderstand then
    ([], Some (Message
      (lit "Please confirm that you understand by typing 'I UNDERSTAND'")))
  else
  match generateSalt (env_saltBytes env) with
  | Err e => ([], Some (Thrown e))
  | Ok salt =>
      match deriveKeys password salt with
      | Err e => ([], Some (Thrown e))
      | Ok (_, verificationKey) =>
          match env_signUp env with
          | Err e => ([SignUp email password], Some (Thrown e))
          | Ok None =>
              ([SignUp email password],
               Some (Message (lit "Failed to create user account")))
          | Ok (Some uid) =>
              let row := {| row_id := uid; row_email := email;
                            row_kdf_salt := salt;
                            row_verifier_hash := verificationKey;
                            row_auto_lock_minutes := 5;
                            row_clear_clipboard_seconds := 30;
                            row_created_at := env_createdAt env |} in
              let calls := [SignUp email password; UpsertProfile row] in
              match env_upsert env with
              | Err e => (calls, Some (Thrown e))
              | Ok _ => (calls, None)
              end
          end
      end
  end.

(** [handleRegister] of the first version of the page in the same file
    (its lines 79-122): it signs up with the first 60 characters of the
    verifier and passes the salt as user metadata ([kdf_salt]), and writes
    no profile row.  The [emailRedirectTo] option is not modelled. *)
Definition handleRegisterFirst (email password : jsstring) (env : RegisterEnv)
    : list AuthCall * option page_error :=
  match generateSalt (env_saltBytes env) with
  | Err e => ([], Some (Thrown e))
  | Ok salt =>
      match deriveKeys password salt with
      | Err e => ([], Some (Thrown e))
      | Ok (_, verificationKey) =>
          let calls := [SignUpWithMetadata email (firstn 60 verificationKey) salt] in
          match env_signUp env with
          | Err e => (calls, Some (Thrown e))
          | Ok None => (calls, Some (Message (lit "Failed to create user")))
          | Ok (Some _) => (calls, None)
          end
      end
  end.

Definition invalidCredentials : page_error :=
  Message (lit "Invalid login credentials").

(** [handleLogin]: the calls made and the error left on the page ([None]
    when it redirects to the vault).  A falsy salt ([null] or the empty
    string) is refused. *)
Definition handleLogin (email password : jsstring) (env : LoginEnv)
    : list AuthCall * option page_error :=
  let calls := [RpcGetUserSalt email] in
  match env_userSalt env with
  | Err _ => (calls, Some invalidCredentials)
  | Ok None => (calls, Some invalidCredentials)
  | Ok (Some []) => (calls, Some invalidCredentials)
  | Ok (Some salt) =>
      match deriveKeys password salt with
      | Err e => (calls, Some (Thrown e))
      | Ok (_, verificationKey) =>
          let calls := calls ++ [SignInWithPassword email (firstn 60 verificationKey)] in
          match env_signIn env with
          | Err e => (calls, Some (Thrown e))
          | Ok _ => (calls, None)
          end
      end
  end.

End Pages.
End AuthPages.

(** ** The other handlers of the vault page ([src/app/vault/page.tsx]) and
    of its settings dialog ([src/components/vault/SettingsDialog.tsx]) *)

Module VaultPage.
Import VaultStore.

(** A JS object used as a [Record<string, V>]: its own properties.  Only
    lookups are used below, so the order of the properties does not
    matter. *)
Definition JsObject (V : Type) := list (jsstring * V).

Fixpoint obj_get {V} (m : JsObject V) (k : jsstring) : option V :=
  match m with
  | [] => None
  | (k', v) :: rest => if jsstring_eqb k' k then Some v else obj_get rest k
  end.

(** [{ ...prev, [k]: v }] *)
Fixpoint obj_set {V} (m : JsObject V) (k : jsstring) (v : V) : JsObject V :=
  match m with
  | [] => [(k, v)]
  | (k', v') :: rest =>
      if jsstring_eqb k' k then (k', v) :: rest else (k', v') :: obj_set rest k v
  end.

(** [const updated = { ...prev }; delete updated[k]] *)
Definition obj_delete {V} (m : JsObject V) (k : jsstring) : JsObject V :=
  filter (fun kv => negb (jsstring_eqb (fst kv) k)) m.

(** [handleRevealPassword(item)], on [revealedPasswords]. *)
Definition handleRevealPassword (prev : JsObject jsstring) (item : DecryptedVaultItem)
    : JsObject jsstring :=
  obj_set prev (id item) (password item).

(** [handleHidePassword(itemId)], on [revealedPasswords]. *)
Definition handleHidePassword (prev : JsObject jsstring) (itemId : jsstring)
    : JsObject jsstring :=
  obj_delete prev itemId.

(** The [vault_items] rows, reduced to the columns that decide which rows
    exist and whose they are; no update of the page writes them. *)
Record ItemRow := {
  row_id : jsstring;
  row_user_id : jsstring
}.

(** The calls of the page to the [vault_items] table; [userId!] is passed
    as it is, [None] for [null]. *)
Inductive DbCall :=
  | InsertItem (user_id : option jsstring) (title ciphertext iv auth_tag : jsstring)
  | UpdateFavorite (itemId : jsstring) (user_id : option jsstring) (fav : bool)
  | UpdateContent (itemId : jsstring) (user_id : option jsstring)
      (title ciphertext iv last_modified : jsstring)
  | DeleteItem (itemId : jsstring) (user_id : option jsstring).

(** [.eq("id", i).eq("user_id", uid)]; [eq] with [null] matches no row. *)
Definition row_matches (i : jsstring) (uid : option jsstring) (r : ItemRow) : bool :=
  jsstring_eqb (row_id r) i &&
  match uid with Some u => jsstring_eqb (row_user_id r) u | None => false end.

(** A call's effect on the rows; [newId] is the id the database gives a new
    row (the insert sends none).  An insert without a user id is refused,
    the column being a non-null string. *)
Definition applyCall (newId : jsstring) (t : list ItemRow) (c : DbCall) : list ItemRow :=
  match c with
  | InsertItem (Some u) _ _ _ _ => t ++ [{| row_id := newId; row_user_id := u |}]
  | InsertItem None _ _ _ _ => t
  | UpdateFavorite _ _ _ => t
  | UpdateContent _ _ _ _ _ _ => t
  | DeleteItem i uid => filter (fun r => negb (row_matches i uid r)) t
  end.

(** The [Partial<DecryptedVaultItem>] with no property. *)
Definition noUpdate : PartialDecryptedVaultItem :=
  {| p_id := None; p_title := None; p_ciphertext := None; p_iv := None;
     p_auth_tag := None; p_category_id := None; p_is_favorite := None;
     p_last_accessed := None; p_last_modified := None; p_created_at := None;
     p_username := None; p_password := None; p_url := None; p_notes := None |}.

(** [{ is_favorite: b }] *)
Definition favoriteUpdate (b : bool) : PartialDecryptedVaultItem :=
  {| p_id := None; p_title := None; p_ciphertext := None; p_iv := None;
     p_auth_tag := None; p_category_id := None; p_is_favorite := Some b;
     p_last_accessed := None; p_last_modified := None; p_created_at := None;
     p_username := None; p_password := None; p_url := None; p_notes := None |}.

(** The data of the add and edit dialogs: [VaultItemPayload & { title: string }]. *)
Record ItemForm := {
  form_title : jsstring;
  form_payload : VaultItemPayload
}.

(** The update [handleUpdateItem] gives the store. *)
Definition contentUpdate (data : ItemForm) (ciphertext iv now : jsstring)
    : PartialDecryptedVaultItem :=
  match form_payload data with
  | Build_VaultItemPayload u p ur n =>
      {| p_id := None; p_title := Some (form_title data);
         p_ciphertext := Some ciphertext; p_iv := Some iv;
         p_auth_tag := None; p_category_id := None; p_is_favorite := None;
         p_last_accessed := None; p_last_modified := Some now; p_created_at := None;
         p_username := Some u; p_password := Some p; p_url := Some ur;
         p_notes := Some n |}
  end.

(** The page's own auto-lock delay, [useState(5)], never set. *)
Definition pageAutoLockMinutes : Z := 5.

Inductive IdleEvent :=
  | Tick       (* the one-second interval fires *)
  | Activity.  (* mousemove, keydown, click or scroll *)

(** What the settings dialog's [handleDeleteAccount] calls. *)
Inductive SettingsCall :=
  | RpcDeleteUserAccount
  | SignOut.

Section Handlers.
Context `{Runtime}.

(** [JSON.stringify] of the dialogs' data (the payload and the title). *)
Variable stringifyForm : ItemForm -> jsstring.

(** [handleLock]: [lockVault()], then [setRevealedPasswords({})]. *)
Definition handleLock (st : VaultState) (revealed : JsObject jsstring)
    : VaultState * JsObject jsstring :=
  (step st LockVault, []).

(** [handleToggleFavorite(itemId, currentStatus)]; [remote] is the answer
    of the update; on an error it is only logged. *)
Definition handleToggleFavorite (st : VaultState) (itemId : jsstring)
    (currentStatus : bool) (remote : result unit) : list DbCall * VaultState :=
  let calls := [UpdateFavorite itemId (userId st) (negb currentStatus)] in
  match remote with
  | Err _ => (calls, st)
  | Ok _ => (calls, step st (UpdateItem itemId (favoriteUpdate (negb currentStatus))))
  end.

(** [handleUpdateItem(data)]: the calls, the store after it, and the page's
    error after it ([err] before).  [rnd] is the nonce draw of [encrypt],
    [now1] and [now2] the two [new Date().toISOString()] calls. *)
Definition handleUpdateItem (st : VaultState) (selectedItem : option DecryptedVaultItem)
    (err : option jsstring) (data : ItemForm) (rnd : list Z) (remote : result unit)
    (now1 now2 : jsstring) : list DbCall * VaultState * option jsstring :=
  match selectedItem, encryptionKey st with
  | Some sel, Some key =>
      match encrypt (stringifyForm data) key None rnd with
      | Err _ => ([], st, Some (lit "Failed to update item"))
      | Ok (ciphertext, iv) =>
          let calls := [UpdateContent (id sel) (userId st) (form_title data)
                          ciphertext iv now1] in
          match remote with
          | Err _ => (calls, st, Some (lit "Failed to update item"))
          | Ok _ =>
              (calls, step st (UpdateItem (id sel) (contentUpdate data ciphertext iv now2)),
               err)
          end
      end
  | _, _ => ([], st, err)
  end.

(** The [onAdd] callback given to [AddItemDialog]; an error is thrown to the
    dialog.  [uuid] is [crypto.randomUUID()], [now1]..[now3] the three
    [new Date().toISOString()] calls. *)
Definition onAdd (st : VaultState) (data : ItemForm) (rnd : list Z)
    (uuid now1 now2 now3 : jsstring) (insertResult : result unit)
    : list DbCall * result VaultState :=
  match encryptionKey st with
  | None => ([], Ok st)
  | Some key =>
      match encrypt (stringifyForm data) key None rnd with
      | Err e => ([], Err e)
      | Ok (ciphertext, iv) =>
          let calls := [InsertItem (userId st) (form_title data) ciphertext iv []] in
          match insertResult with
          | Err e => (calls, Err e)
          | Ok _ =>
              match form_payload data with
              | Build_VaultItemPayload u p ur n =>
                  let item :=
                    {| base := {| id := uuid; title := form_title data;
                                  ciphertext := ciphertext; iv := iv; auth_tag := [];
                                  category_id := None; is_favorite := false;
                                  last_accessed := now1; last_modified := now2;
                                  created_at := now3 |};
                       username := u; password := p; url := ur; notes := n |} in
                  (calls, Ok (step st (AddItem item)))
              end
          end
      end
  end.

(** The Delete button of the confirmation dialog: the calls, the store, and
    [itemToDelete] after it.  The answer of the delete is not read. *)
Definition confirmDelete (st : VaultState) (itemToDelete : option jsstring)
    : list DbCall * VaultState * option jsstring :=
  match itemToDelete with
  | None => ([], st, itemToDelete)
  | Some [] => ([], st, itemToDelete)
  | Some i => ([DeleteItem i (userId st)], step st (RemoveItem i), None)
  end.

(** One event seen by the idle timer: [idle] is [idleTimeRef.current].  The
    listeners and the interval are installed only while the vault is
    unlocked. *)
Definition idleStep (s : Z * VaultState * JsObject jsstring) (e : IdleEvent)
    : Z * VaultState * JsObject jsstring :=
  let '(idle, st, revealed) := s in
  if isUnlocked st then
    match e with
    | Activity => (0, st, revealed)
    | Tick =>
        let idle' := idle + 1 in
        if idle' >=? pageAutoLockMinutes * 60 then
          let (st', revealed') := handleLock st revealed in (0, st', revealed')
        else (idle', st, revealed)
    end
  else s.

Definition runIdle (s : Z * VaultState * JsObject jsstring) (es : list IdleEvent)
    : Z * VaultState * JsObject jsstring :=
  fold_left idleStep es s.

(** [handleDeleteAccount]: the calls, the store, and the dialog's error
    after it.  A failing [signOut] is caught and ignored. *)
Definition handleDeleteAccount (st : VaultState) (confirmationText : jsstring)
    (err : option jsstring) (rpc : result unit)
    : list SettingsCall * VaultState * option jsstring :=
  if negb (jsstring_eqb confirmationText (lit "DELETE")) then
    ([], st, Some (lit "Please type DELETE to confirm."))
  else
    match rpc with
    | Err _ => ([RpcDeleteUserAccount], st,
                Some (lit "Failed to delete account. Please try again."))
    | Ok _ => ([RpcDeleteUserAccount; SignOut], step st Logout, None)
    end.

End Handlers.

(** [String.prototype.startsWith] and [includes] on code units. *)
Fixpoint startsWith (s p : jsstring) : bool :=
  match p, s with
  | [], _ => true
  | x :: p', y :: s' => (x =? y) && startsWith s' p'
  | _ :: _, [] => false
  end.

Fixpoint includes (s p : jsstring) : bool :=
  startsWith s p || match s with [] => false | _ :: s' => includes s' p end.

(** [filteredItems]; [toLowerCase] is [String.prototype.toLowerCase]. *)
Definition filteredItems (toLowerCase : jsstring -> jsstring)
    (its : list DecryptedVaultItem) (searchQuery : jsstring) : list DecryptedVaultItem :=
  filter (fun item : DecryptedVaultItem =>
            includes (toLowerCase (title item)) (toLowerCase searchQuery)
            || includes (toLowerCase (username item)) (toLowerCase searchQuery)) its.

End VaultPage.

(** ** Example data for the pages *)

Module PageExamples.
Import VaultStore Mock Examples.

Definition item1 : DecryptedVaultItem :=
  {| base := {| id := lit "item-1"; title := lit "Example"; ciphertext := fst sealed0;
                iv := snd sealed0; auth_tag := []; category_id := None;
                is_favorite := false; last_accessed := []; last_modified := [];
                created_at := [] |};
     username := lit "alice"; password := lit "hunter2"; url := None; notes := None |}.

Definition item2 : DecryptedVaultItem :=
  {| base := {| id := lit "item-2"; title := lit "Mail"; ciphertext := fst sealed0;
                iv := snd sealed0; auth_tag := []; category_id := None;
                is_favorite := true; last_accessed := []; last_modified := [];
                created_at := [] |};
     username := lit "bob"; password := lit "secret"; url := None; notes := None |}.

(** A signed-in session unlocked with the key of [goodPw], caching [item1]. *)
Definition st1 : @VaultState mockRuntime :=
  run initialState [SetAuthenticated (lit "user-1") (lit "a@b.c");
                    SetUnlocked false salt0; SetVaultData [item1] []].

Definition form1 : VaultPage.ItemForm :=
  {| VaultPage.form_title := lit "New"; VaultPage.form_payload := payload0 |}.

(** A stand-in for [JSON.stringify] of the dialogs' data. *)
Definition stringify1 (d : VaultPage.ItemForm) : jsstring := VaultPage.form_title d.

(** [toLowerCase] on ASCII letters. *)
Definition asciiLower (s : jsstring) : jsstring :=
  map (fun c => if in_range 65 90 c then c + 32 else c) s.

(** A profile locked until [t = 5000000] ms. *)
Definition pLocked : UnlockPage.Profile :=
  {| UnlockPage.kdf_salt := salt0; UnlockPage.verifier_hash := [];
     UnlockPage.failed_unlock_attempts := 5;
     UnlockPage.failed_unlock_locked_until := Some 5000000 |}.

Definition renv1 : AuthPages.RegisterEnv :=
  {| AuthPages.env_saltBytes := salt0; AuthPages.env_signUp := Ok (Some (lit "user-1"));
     AuthPages.env_upsert := Ok tt; AuthPages.env_createdAt := [] |}.

(** The profile row written by registering [goodPw] in [renv1]. *)
Definition regRow1 : AuthPages.ProfileRow :=
  match fst (@AuthPages.handleRegister mockRuntime true (lit "a@b.c") goodPw renv1) with
  | [_; AuthPages.UpsertProfile r] => r
  | _ => AuthPages.Build_ProfileRow [] [] [] [] 0 0 []
  end.

(** [get_user_salt] answering the registered salt, and answering [null]. *)
Definition lenv1 : AuthPages.LoginEnv :=
  {| AuthPages.env_userSalt := Ok (Some (AuthPages.row_kdf_salt regRow1));
     AuthPages.env_signIn := Ok tt |}.

(** The password the first version of the registration page signs up
    with for [goodPw] in [renv1], and [get_user_salt] answering its salt. *)
Definition regPw1 : jsstring :=
  match fst (@AuthPages.handleRegisterFirst mockRuntime (lit "a@b.c") goodPw renv1) with
  | [AuthPages.SignUpWithMetadata _ pw _] => pw
  | _ => []
  end.

Definition lenvFirst : AuthPages.LoginEnv :=
  {| AuthPages.env_userSalt := Ok (Some salt0); AuthPages.env_signIn := Ok tt |}.

Definition lenvNull : AuthPages.LoginEnv :=
  {| AuthPages.env_userSalt := Ok None; AuthPages.env_signIn := Ok tt |}.

End PageExamples.

(** * Proofs *)

(** ** Bytes and bit flips *)

Lemma lxor_byte (b j : Z) :
  is_byte b -> 0 <= j < 8 -> is_byte (Z.lxor b (2 ^ j)).
Proof.
  unfold is_byte; intros Hb Hj.
  assert (Hp : 0 <= 2 ^ j) by (apply Z.pow_nonneg; lia).
  assert (Hn : 0 <= Z.lxor b (2 ^ j)) by (apply Z.lxor_nonneg; split; lia).
  split; [exact Hn|].
  destruct (Z.eq_dec (Z.lxor b (2 ^ j)) 0) as [E|E]; [lia|].
  assert (Hx : 0 < Z.lxor b (2 ^ j)) by lia.
  assert (Hl : Z.log2 (Z.lxor b (2 ^ j)) <= Z.max (Z.log2 b) (Z.log2 (2 ^ j)))
    by (apply Z.log2_lxor; lia).
  rewrite Z.log2_pow2 in Hl by lia.
  assert (Z.log2 b < 8).
  { destruct (Z.eq_dec b 0) as [->|]; [simpl; lia|].
    apply Z.log2_lt_pow2; [lia|]. change (2 ^ 8) with 256; lia. }
  destruct (Z.log2_spec _ Hx) as [_ Hs].
  assert (2 ^ Z.succ (Z.log2 (Z.lxor b (2 ^ j))) <= 2 ^ 8)
    by (apply Z.pow_le_mono_r; lia).
  change (2 ^ 8) with 256 in *; lia.
Qed.

Lemma flip_bit_bytes (l : list Z) (i : nat) (j : Z) :
  Forall is_byte l -> 0 <= j < 8 -> Forall is_byte (flip_bit l i j).
Proof.
  revert i; induction l as [|b rest IH]; intros i Hl Hj; [constructor|].
  inversion Hl; subst.
  destruct i; simpl; constructor; auto using lxor_byte.
Qed.

Lemma flip_bit_length (l : list Z) (i : nat) (j : Z) :
  List.length (flip_bit l i j) = List.length l.
Proof.
  revert i; induction l; intros [|i]; simpl; auto.
Qed.

Lemma flip_bit_nth_other (l : list Z) (i p : nat) (j d : Z) :
  p <> i -> nth p (flip_bit l i j) d = nth p l d.
Proof.
  revert i p; induction l as [|b rest IH]; intros i p Hne; [reflexivity|].
  destruct i, p; simpl; auto; congruence.
Qed.

Lemma flip_bit_changes (l : list Z) (i : nat) (j : Z) :
  (i < List.length l)%nat -> 0 <= j -> flip_bit l i j <> l.
Proof.
  revert i; induction l as [|b rest IH]; intros i Hi Hj; simpl in Hi; [lia|].
  destruct i; simpl; intros E.
  - injection E as E1.
    assert (Hz : 2 ^ j = 0).
    { assert (Hx : Z.lxor b (Z.lxor b (2 ^ j)) = Z.lxor b b) by (rewrite E1; reflexivity).
      rewrite <- Z.lxor_assoc, !Z.lxor_nilpotent, Z.lxor_0_l in Hx; exact Hx. }
    pose proof (Z.pow_pos_nonneg 2 j); lia.
  - injection E as E2. apply (IH i); [lia | lia | exact E2].
Qed.

Lemma bytes_mod256 (l : list Z) :
  Forall is_byte l -> map (fun c => c mod 256) l = l.
Proof.
  induction 1 as [|x l Hx _ IH]; simpl; [reflexivity|].
  rewrite IH, Z.mod_small by (unfold is_byte in Hx; lia); reflexivity.
Qed.

Lemma mod256_bytes (l : list Z) : Forall is_byte (map (fun c => c mod 256) l).
Proof.
  induction l; simpl; constructor; auto.
  unfold is_byte; apply Z.mod_pos_bound; lia.
Qed.

(** ** Base64 helpers under [RuntimeLaws] *)

Section Base64.
Context `{RL : RuntimeLaws}.

Lemma bufferToBase64_total (l : list Z) :
  Forall is_byte l -> exists s, bufferToBase64 l = Ok s.
Proof.
  intros Hl; destruct (btoa_atob l Hl) as (b & Hb & _).
  exists b; unfold bufferToBase64; rewrite Hb; reflexivity.
Qed.

Lemma base64_roundtrip (l : list Z) (s : jsstring) :
  Forall is_byte l -> bufferToBase64 l = Ok s -> base64ToBuffer s = Ok l.
Proof.
  intros Hl Hs; destruct (btoa_atob l Hl) as (b & Hb & Ha).
  unfold bufferToBase64 in Hs; rewrite Hb in Hs; simpl in Hs; injection Hs as <-.
  unfold base64ToBuffer; rewrite Ha; simpl; rewrite bytes_mod256; auto.
Qed.

Lemma base64ToBuffer_bytes (s : jsstring) (l : list Z) :
  base64ToBuffer s = Ok l -> Forall is_byte l.
Proof.
  unfold base64ToBuffer; destruct (atob s); simpl; intros E; inversion E.
  apply mod256_bytes.
Qed.

End Base64.

(** ** The concrete runtime meets the laws *)

Section MockLaws.
Import Mock.

Lemma firstn_length_app (l1 l2 : list Z) : firstn (List.length l1) (l1 ++ l2) = l1.
Proof. induction l1; simpl; f_equal; auto. Qed.

Lemma skipn_length_app (l1 l2 : list Z) : skipn (List.length l1) (l1 ++ l2) = l2.
Proof. induction l1; simpl; auto. Qed.

Lemma half_double (n : nat) : ((n + n) / 2 = n)%nat.
Proof. replace (n + n)%nat with (n * 2)%nat by lia. apply Nat.div_mul; lia. Qed.

Lemma list_eqb_refl (l : list Z) : list_eqb l l = true.
Proof. unfold list_eqb; destruct (list_eq_dec Z.eq_dec l l); congruence. Qed.

Lemma list_eqb_eq (a b : list Z) : list_eqb a b = true -> a = b.
Proof. unfold list_eqb; destruct (list_eq_dec Z.eq_dec a b); congruence. Qed.

Lemma key_byte_inj (k k' : bool) : key_byte k = key_byte k' -> k = k'.
Proof. destruct k, k'; simpl; congruence. Qed.

Lemma mock_encrypt_some (k : bool) (iv m c : list Z) :
  mock_encrypt k iv m = Some c ->
  List.length iv = 12%nat /\ c = key_byte k :: iv ++ m ++ m.
Proof.
  unfold mock_encrypt; destruct (Nat.eqb (List.length iv) 12) eqn:E;
    intros H; inversion H; subst; split; auto; apply Nat.eqb_eq; exact E.
Qed.

Lemma mock_roundtrip (k : bool) (iv m c : list Z) :
  mock_encrypt k iv m = Some c -> mock_decrypt k iv c = Some m.
Proof.
  intros H; apply mock_encrypt_some in H as [Hl ->].
  unfold mock_decrypt.
  rewrite <- Hl, firstn_length_app, skipn_length_app, length_app, half_double,
    firstn_length_app, skipn_length_app, Z.eqb_refl, Nat.eqb_refl, !list_eqb_refl.
  reflexivity.
Qed.

Lemma mock_auth (k : bool) (iv c m : list Z) :
  mock_decrypt k iv c = Some m -> mock_encrypt k iv m = Some c.
Proof.
  intros H; destruct c as [|b rest]; [discriminate|].
  unfold mock_decrypt in H.
  set (body := skipn 12 rest) in H.
  set (n := (List.length body / 2)%nat) in H.
  match type of H with
  | (if ?cond then _ else _) = _ => destruct cond eqn:E; [|discriminate]
  end.
  injection H as <-.
  apply andb_prop in E as [E E4]; apply andb_prop in E as [E E3];
    apply andb_prop in E as [E1 E2].
  apply Z.eqb_eq in E1; apply list_eqb_eq in E3; apply list_eqb_eq in E4.
  unfold mock_encrypt; rewrite E2; f_equal.
  rewrite E4 at 2.
  rewrite firstn_skipn, <- E3, <- E1.
  unfold body; rewrite firstn_skipn; reflexivity.
Qed.

Lemma mock_binding (k k' : bool) (iv iv' m m' c : list Z) :
  mock_encrypt k iv m = Some c -> mock_encrypt k' iv' m' = Some c ->
  k = k' /\ iv = iv'.
Proof.
  intros H1 H2; apply mock_encrypt_some in H1 as [L1 ->];
    apply mock_encrypt_some in H2 as [L2 E].
  injection E as Ek Ei; split; [apply key_byte_inj; auto|].
  rewrite <- (firstn_length_app iv (m ++ m)), Ei, L1, <- L2, firstn_length_app.
  reflexivity.
Qed.

Lemma nth_after_prefix (kb : Z) (iv X : list Z) (p : nat) :
  List.length iv = 12%nat -> nth (13 + p) (kb :: iv ++ X) 0 = nth p X 0.
Proof.
  intros L; change (13 + p)%nat with (S (12 + p)); simpl.
  rewrite app_nth2 by lia; f_equal; lia.
Qed.

Lemma mock_distance (k : bool) (iv m m' c : list Z) (i : nat) (j : Z) :
  mock_encrypt k iv m = Some c -> (i < List.length c)%nat -> 0 <= j < 8 ->
  mock_encrypt k iv m' <> Some (flip_bit c i j).
Proof.
  intros H1 Hi Hj H2.
  apply mock_encrypt_some in H1 as [L ->]; apply mock_encrypt_some in H2 as [_ E].
  set (c := key_byte k :: iv ++ m ++ m) in *.
  assert (Hlen : List.length m' = List.length m).
  { apply (f_equal (@List.length Z)) in E.
    rewrite flip_bit_length in E; unfold c in E; simpl in E;
      rewrite !length_app in E; lia. }
  assert (Hq : forall q, q <> i ->
             nth q (key_byte k :: iv ++ m' ++ m') 0 = nth q c 0).
  { intros q Hq; rewrite <- E; apply flip_bit_nth_other; exact Hq. }
  assert (Hm : m' = m).
  { apply nth_ext with (d := 0) (d' := 0); [exact Hlen|].
    intros p Hp; rewrite Hlen in Hp.
    destruct (Nat.eq_dec (13 + p) i) as [Ei|Ei].
    - specialize (Hq (13 + (List.length m + p))%nat ltac:(lia)).
      unfold c in Hq; rewrite !nth_after_prefix in Hq by exact L.
      rewrite !app_nth2 in Hq by lia.
      replace (List.length m + p - List.length m')%nat with p in Hq by lia.
      replace (List.length m + p - List.length m)%nat with p in Hq by lia.
      exact Hq.
    - specialize (Hq (13 + p)%nat Ei).
      unfold c in Hq; rewrite !nth_after_prefix in Hq by exact L.
      rewrite !app_nth1 in Hq by lia; exact Hq. }
  subst m'; fold c in E.
  apply (flip_bit_changes c i j); [exact Hi | lia | exact E].
Qed.

Lemma mock_btoa_atob (s : jsstring) :
  Forall is_byte s -> exists b, @btoa mockRuntime s = Some b /\ @atob mockRuntime b = Some s.
Proof.
  intros Hs; exists s; simpl.
  replace (forallb is_byteb s) with true; [auto|].
  symmetry; apply forallb_forall; intros x Hx.
  rewrite Forall_forall in Hs; specialize (Hs x Hx); unfold is_byte in Hs.
  unfold is_byteb; apply andb_true_intro; split; [apply Z.leb_le | apply Z.ltb_lt]; lia.
Qed.

Lemma mock_bytes (k : bool) (iv m c : list Z) :
  Forall is_byte iv -> Forall is_byte m -> mock_encrypt k iv m = Some c ->
  Forall is_byte c.
Proof.
  intros Hi Hm H; apply mock_encrypt_some in H as [_ ->].
  constructor; [unfold is_byte, key_byte; destruct k; lia|].
  apply Forall_app; split; [exact Hi | apply Forall_app; split; exact Hm].
Qed.

End MockLaws.

#[export] Instance mockLaws : @RuntimeLaws Mock.mockRuntime.
Proof.
  constructor.
  - exact mock_btoa_atob.
  - exact mock_roundtrip.
  - exact mock_bytes.
  - intros s; apply mod256_bytes.
Qed.

#[export] Instance mockIdeal : @IdealAead Mock.mockRuntime.
Proof.
  constructor.
  - exact mock_auth.
  - exact mock_binding.
  - exact mock_distance.
Qed.

(** ** Inversion of [encrypt] and failure of [decrypt] *)

Section CryptoFacts.
Context `{R : Runtime}.

Lemma encrypt_inv (pt : jsstring) (K : CryptoKey) (ivopt : option jsstring)
    (rnd : list Z) (c ivs : jsstring) :
  encrypt pt K ivopt rnd = Ok (c, ivs) ->
  exists ivb e,
    match ivopt with Some ((_ :: _) as s) => base64ToBuffer s | _ => Ok rnd end = Ok ivb /\
    aesGcmEncrypt K ivb (textEncode pt) = Some e /\
    bufferToBase64 e = Ok c /\ bufferToBase64 ivb = Ok ivs.
Proof.
  unfold encrypt.
  destruct (match ivopt with Some ((_ :: _) as s) => base64ToBuffer s | _ => Ok rnd end)
    as [ivb|e0] eqn:Eiv; simpl; [|discriminate].
  destruct (aesGcmEncrypt K ivb (textEncode pt)) as [e|] eqn:Ee; simpl; [|discriminate].
  destruct (bufferToBase64 e) as [c'|] eqn:Ec; simpl; [|discriminate].
  destruct (bufferToBase64 ivb) as [i'|] eqn:Ei; simpl; [|discriminate].
  intros H; injection H as <- <-; exists ivb, e; auto.
Qed.

Lemma nonce_choice_bytes (ivopt : option jsstring) (rnd ivb : list Z) :
  Forall is_byte rnd ->
  match ivopt with Some ((_ :: _) as s) => base64ToBuffer s | _ => Ok rnd end = Ok ivb ->
  Forall is_byte ivb.
Proof.
  intros Hr; destruct ivopt as [[|x s]|]; intros E;
    try (injection E as <-; exact Hr).
  eapply base64ToBuffer_bytes; exact E.
Qed.

Lemma decrypt_rejected (c ivs : jsstring) (K : CryptoKey) (ct nonce : list Z) :
  base64ToBuffer c = Ok ct -> base64ToBuffer ivs = Ok nonce ->
  aesGcmDecrypt K nonce ct = None ->
  decrypt c ivs K = Err OperationError /\ decryptVaultItem c ivs K = Err OperationError.
Proof.
  intros Hc Hi Hd.
  assert (E : decrypt c ivs K = Err OperationError)
    by (unfold decrypt; rewrite Hc; simpl; rewrite Hi; simpl; rewrite Hd; reflexivity).
  split; [exact E|]; unfold decryptVaultItem; rewrite E; reflexivity.
Qed.

End CryptoFacts.

(** ** Claim C3: the seal/open round trip *)

(** C3. For every payload [P] and key [K]: when [encryptVaultItem P K]
    returns [(ciphertext, iv)], [decryptVaultItem ciphertext iv K] returns
    [P].  Assumed of the browser: the laws [RuntimeLaws] (base64 round trip
    on bytes, AES-GCM decrypts what it encrypts), that [TextDecoder] undoes
    [TextEncoder] on the JSON text of [P], and that [JSON.parse] reads that
    text back as [P]. *)
Theorem encryptVaultItem_roundtrip `{RL : RuntimeLaws} (P : VaultItemPayload)
    (K : CryptoKey) (rnd : list Z) (c ivs : jsstring) :
  Forall is_byte rnd ->
  textDecode (textEncode (jsonStringify P)) = jsonStringify P ->
  jsonParse (jsonStringify P) = Some P ->
  encryptVaultItem P K rnd = Ok (c, ivs) ->
  decryptVaultItem c ivs K = Ok P.
Proof.
  intros Hr Hutf Hjson Henc; unfold encryptVaultItem in Henc.
  destruct (encrypt_inv _ _ _ _ _ _ Henc) as (ivb & e & Eiv & Ee & Ec & Ei).
  simpl in Eiv; injection Eiv as <-.
  assert (He : Forall is_byte e) by exact (aes_bytes _ _ _ _ Hr (textEncode_bytes _) Ee).
  unfold decryptVaultItem, decrypt.
  rewrite (base64_roundtrip e c He Ec); simpl.
  rewrite (base64_roundtrip rnd ivs Hr Ei); simpl.
  rewrite (aes_roundtrip _ _ _ _ Ee); simpl.
  rewrite Hutf, Hjson; reflexivity.
Qed.

(** ** Claim C4: [deriveKeys] is deterministic and splits one PBKDF2 output *)

(** C4. [deriveKeys pw salt] depends on nothing but [pw] and [salt]: two
    calls with the same inputs give the same encryption key and verifier.
    The encryption key is the AES-GCM import of bytes [0, 32) of the 512-bit
    PBKDF2-SHA-256 output with 600000 iterations, and the verifier is the
    base64 of one SHA-256 digest of bytes [32, 64). *)
Theorem deriveKeys_deterministic_split `{R : Runtime} (pw s : jsstring) :
  (forall ek1 vk1 ek2 vk2,
     deriveKeys pw s = Ok (ek1, vk1) -> deriveKeys pw s = Ok (ek2, vk2) ->
     ek1 = ek2 /\ vk1 = vk2) /\
  (forall ek vk, deriveKeys pw s = Ok (ek, vk) ->
     exists pk salt km h,
       importPbkdf2Key (textEncode pw) = Some pk /\
       base64ToBuffer s = Ok salt /\
       deriveBitsPbkdf2 pk salt 600000 "SHA-256" 512 = Some km /\
       importAesGcmKey (firstn 32 km) 256 = Some ek /\
       digest "SHA-256" (firstn 32 (skipn 32 km)) = Some h /\
       bufferToBase64 h = Ok vk).
Proof.
  split.
  - intros ek1 vk1 ek2 vk2 H1 H2; rewrite H1 in H2; injection H2 as -> ->; auto.
  - intros ek vk; unfold deriveKeys.
    destruct (importPbkdf2Key (textEncode pw)) as [pk|] eqn:E1; simpl; [|discriminate].
    destruct (base64ToBuffer s) as [salt|] eqn:E2; simpl; [|discriminate].
    destruct (deriveBitsPbkdf2 pk salt PBKDF2_ITERATIONS "SHA-256" 512)
      as [km|] eqn:E3; simpl; [|discriminate].
    destruct (importAesGcmKey (slice 0 32 km) KEY_LENGTH) as [k|] eqn:E4; simpl;
      [|discriminate].
    destruct (digest "SHA-256" (slice 32 64 km)) as [h|] eqn:E5; simpl; [|discriminate].
    destruct (bufferToBase64 h) as [v|] eqn:E6; simpl; [|discriminate].
    intros H; injection H as <- <-.
    exists pk, salt, km, h; repeat split; assumption.
Qed.

(** ** Claim C5: tampering makes [decrypt] fail with one error *)

(** C5. Take any output [(ciphertext, iv)] of [encrypt] (so also of
    [encryptVaultItem]), with ciphertext bytes [ct] and nonce bytes [nonce].
    Flipping any one bit of [ct] (its last 16 bytes are the GCM tag) or of
    [nonce], or opening under another key, makes [decrypt] and
    [decryptVaultItem] fail, and always with the same error, [OperationError].
    They never return a plaintext.  AES-GCM is assumed to behave as an ideal
    AEAD ([IdealAead]). *)
Theorem decrypt_tamper `{RL : RuntimeLaws} `{IA : !IdealAead} (pt : jsstring)
    (K : CryptoKey) (ivopt : option jsstring) (rnd : list Z) (c ivs : jsstring)
    (ct nonce : list Z) :
  Forall is_byte rnd ->
  encrypt pt K ivopt rnd = Ok (c, ivs) ->
  base64ToBuffer c = Ok ct -> base64ToBuffer ivs = Ok nonce ->
  (forall i j c', (i < List.length ct)%nat -> 0 <= j < 8 ->
     bufferToBase64 (flip_bit ct i j) = Ok c' ->
     decrypt c' ivs K = Err OperationError /\
     decryptVaultItem c' ivs K = Err OperationError) /\
  (forall i j ivs', (i < List.length nonce)%nat -> 0 <= j < 8 ->
     bufferToBase64 (flip_bit nonce i j) = Ok ivs' ->
     decrypt c ivs' K = Err OperationError /\
     decryptVaultItem c ivs' K = Err OperationError) /\
  (forall K', K' <> K ->
     decrypt c ivs K' = Err OperationError /\
     decryptVaultItem c ivs K' = Err OperationError).
Proof.
  intros Hr Henc Hc Hn.
  destruct (encrypt_inv _ _ _ _ _ _ Henc) as (ivb & e & Eiv & Ee & Ec & Ei).
  assert (Hivb : Forall is_byte ivb) by exact (nonce_choice_bytes _ _ _ Hr Eiv).
  assert (He : Forall is_byte e)
    by exact (aes_bytes _ _ _ _ Hivb (textEncode_bytes _) Ee).
  rewrite (base64_roundtrip e c He Ec) in Hc; injection Hc as <-.
  rewrite (base64_roundtrip ivb ivs Hivb Ei) in Hn; injection Hn as <-.
  split; [|split].
  - intros i j c' Hi Hj Hc'.
    apply (decrypt_rejected _ _ _ (flip_bit e i j) ivb);
      [ exact (base64_roundtrip _ _ (flip_bit_bytes _ i j He Hj) Hc')
      | exact (base64_roundtrip _ _ Hivb Ei) |].
    destruct (aesGcmDecrypt K ivb (flip_bit e i j)) as [m|] eqn:D; [|reflexivity].
    exfalso; apply (aes_distance _ _ _ m _ i j Ee Hi Hj), aes_auth, D.
  - intros i j ivs' Hi Hj Hi'.
    apply (decrypt_rejected _ _ _ e (flip_bit ivb i j));
      [ exact (base64_roundtrip _ _ He Ec)
      | exact (base64_roundtrip _ _ (flip_bit_bytes _ i j Hivb Hj) Hi') |].
    destruct (aesGcmDecrypt K (flip_bit ivb i j) e) as [m|] eqn:D; [|reflexivity].
    exfalso; apply aes_auth in D.
    destruct (aes_binding _ _ _ _ _ _ _ Ee D) as [_ Eq].
    apply (flip_bit_changes ivb i j Hi); [lia | symmetry; exact Eq].
  - intros K' HK.
    apply (decrypt_rejected _ _ _ e ivb);
      [ exact (base64_roundtrip _ _ He Ec) | exact (base64_roundtrip _ _ Hivb Ei) |].
    destruct (aesGcmDecrypt K' ivb e) as [m|] eqn:D; [|reflexivity].
    exfalso; apply aes_auth in D.
    destruct (aes_binding _ _ _ _ _ _ _ Ee D) as [Eq _]; congruence.
Qed.

(** ** Claim C6: [deriveKeys] makes no check on the salt length *)

(** C6 (amended). [deriveKeys] does not look at the length of the decoded
    salt: whenever the salt decodes and every Web Crypto step succeeds, it
    returns both keys, whatever the salt length.  Its result is the pair or a
    thrown error, never one key alone. *)
Theorem deriveKeys_any_salt_length `{R : Runtime} (pw s : jsstring)
    (salt : list Z) (pk : Pbkdf2Key) (km : list Z) (ek : CryptoKey)
    (h : list Z) (vk : jsstring) :
  importPbkdf2Key (textEncode pw) = Some pk ->
  base64ToBuffer s = Ok salt ->
  deriveBitsPbkdf2 pk salt PBKDF2_ITERATIONS "SHA-256" 512 = Some km ->
  importAesGcmKey (slice 0 32 km) KEY_LENGTH = Some ek ->
  digest "SHA-256" (slice 32 64 km) = Some h ->
  bufferToBase64 h = Ok vk ->
  deriveKeys pw s = Ok (ek, vk).
Proof.
  intros E1 E2 E3 E4 E5 E6; unfold deriveKeys.
  rewrite E1; simpl; rewrite E2; simpl; rewrite E3; simpl; rewrite E4; simpl;
    rewrite E5; simpl; rewrite E6; reflexivity.
Qed.

(** ** Claim C7: nonces *)

(** C7 (amended). [encryptVaultItem] takes no nonce: its nonce is exactly
    the bytes drawn by [crypto.getRandomValues] for that call, so two seals
    whose draws differ carry different nonces.  The lower-level [encrypt]
    does take an optional caller-supplied base64 nonce: when it is a
    non-empty string it is used and the random draw is ignored, so two calls
    with the same nonce, key and plaintext give the same output. *)
Theorem seal_nonce `{RL : RuntimeLaws} :
  (forall P K rnd c ivs, Forall is_byte rnd ->
     encryptVaultItem P K rnd = Ok (c, ivs) -> base64ToBuffer ivs = Ok rnd) /\
  (forall P1 P2 K1 K2 r1 r2 c1 i1 c2 i2,
     Forall is_byte r1 -> Forall is_byte r2 -> r1 <> r2 ->
     encryptVaultItem P1 K1 r1 = Ok (c1, i1) ->
     encryptVaultItem P2 K2 r2 = Ok (c2, i2) -> i1 <> i2) /\
  (forall pt K s r1 r2, s <> [] ->
     encrypt pt K (Some s) r1 = encrypt pt K (Some s) r2).
Proof.
  assert (Hn : forall P K rnd c ivs, Forall is_byte rnd ->
            encryptVaultItem P K rnd = Ok (c, ivs) -> base64ToBuffer ivs = Ok rnd).
  { intros P K rnd c ivs Hr Hs; unfold encryptVaultItem in Hs.
    destruct (encrypt_inv _ _ _ _ _ _ Hs) as (ivb & e & Eiv & _ & _ & Ei).
    simpl in Eiv; injection Eiv as <-.
    exact (base64_roundtrip _ _ Hr Ei). }
  split; [exact Hn | split].
  - intros P1 P2 K1 K2 r1 r2 c1 i1 c2 i2 H1 H2 Hne E1 E2 Eq; subst i2.
    apply Hn in E1; [|exact H1]; apply Hn in E2; [|exact H2].
    rewrite E1 in E2; injection E2 as E2; exact (Hne E2).
  - intros pt K s r1 r2 Hs; destruct s as [|x s]; [congruence|reflexivity].
Qed.

(** ** Claim C8: the generator *)

Lemma charsetOf_nonempty (o : PasswordOptions) : (0 < List.length (charsetOf o))%nat.
Proof.
  destruct o as [n [] [] [] []]; vm_compute; lia.
Qed.

Lemma generatePassword_shape (o : PasswordOptions) (rnd : nat -> Z) :
  List.length (generatePassword o rnd) = length_opt o /\
  Forall (fun c => In c (charsetOf o)) (generatePassword o rnd).
Proof.
  unfold generatePassword; split.
  - rewrite !length_map, length_seq; reflexivity.
  - apply Forall_forall; intros c Hc; apply in_map_iff in Hc as (v & <- & _).
    pose proof (charsetOf_nonempty o) as Hn.
    apply nth_In.
    assert (Hb : 0 <= v mod Z.of_nat (List.length (charsetOf o))
                 < Z.of_nat (List.length (charsetOf o)))
      by (apply Z.mod_pos_bound; lia).
    lia.
Qed.

(** C8 (amended). [generatePassword] with length 20 and all four classes
    returns, for every draw of random words, exactly 20 characters, each
    taken from the union of the four classes; it does not make sure that
    every class occurs. *)
Theorem generatePassword_all_classes_20 (rnd : nat -> Z) :
  List.length (generatePassword Examples.allClasses20 rnd) = 20%nat /\
  Forall (fun c => In c (uppercase ++ lowercase ++ numbers ++ symbols))
    (generatePassword Examples.allClasses20 rnd).
Proof.
  exact (generatePassword_shape Examples.allClasses20 rnd).
Qed.

(** C8, counterexample: when every random word is 0, the password is twenty
    times "A", with no lowercase letter, digit or symbol. *)
Lemma generatePassword_misses_classes :
  ~ (forall rnd : nat -> Z,
       List.length (generatePassword Examples.allClasses20 rnd) = 20%nat /\
       re_upper (generatePassword Examples.allClasses20 rnd) &&
       re_lower (generatePassword Examples.allClasses20 rnd) &&
       re_digit (generatePassword Examples.allClasses20 rnd) &&
       re_symbol (generatePassword Examples.allClasses20 rnd) = true).
Proof.
  intros H; destruct (H (fun _ => 0)) as [_ E]; vm_compute in E; discriminate.
Qed.

(** ** Claim C9: the strength estimate *)

(** C9. For every string, [estimatePasswordStrength] equals the additive
    rule [strength_spec] (10 per length threshold 8/12/16/20, 10 each for
    lowercase, uppercase and digit, 20 for a symbol, 20 more when all four
    occur with length at least 16, capped at 100), and lies in [0, 100]. *)
Theorem estimatePasswordStrength_additive (pw : jsstring) :
  estimatePasswordStrength pw = strength_spec pw /\
  0 <= estimatePasswordStrength pw <= 100.
Proof.
  unfold estimatePasswordStrength, strength_spec; cbv zeta.
  rewrite !Z.geb_leb.
  set (len := Z.of_nat (List.length pw)).
  simpl filter.
  destruct (8 <=? len), (12 <=? len), (16 <=? len), (20 <=? len),
    (re_lower pw), (re_upper pw), (re_digit pw), (re_symbol pw);
    vm_compute; split; try reflexivity; try discriminate; intuition discriminate.
Qed.

(** ** Claim C10: the store invariant *)

Section StoreFacts.
Import VaultStore.
Context `{R : Runtime}.

Definition unlocked_has_key (s : VaultState) : Prop :=
  isUnlocked s = true -> encryptionKey s <> None /\ salt s <> None.

Lemma step_unlocked_has_key (s : VaultState) (a : VaultAction) :
  unlocked_has_key s -> unlocked_has_key (step s a).
Proof.
  unfold unlocked_has_key; destruct a; simpl; intros Hs Hu;
    first [discriminate | split; discriminate | exact (Hs Hu)].
Qed.

Lemma run_unlocked_has_key (acts : list VaultAction) (s : VaultState) :
  unlocked_has_key s -> unlocked_has_key (run s acts).
Proof.
  unfold run; revert s; induction acts as [|a acts IH]; intros s Hs; simpl;
    [exact Hs | apply IH, step_unlocked_has_key, Hs].
Qed.

End StoreFacts.

(** C10. In every state reached from the initial state by store actions,
    [isUnlocked = true] implies [encryptionKey <> null] and [salt <> null];
    [lockVault] and [logout] both leave [isUnlocked = false],
    [encryptionKey = null] and an empty item list. *)
Theorem store_unlocked_implies_key `{R : Runtime} (acts : list VaultStore.VaultAction) :
  (VaultStore.isUnlocked (VaultStore.run VaultStore.initialState acts) = true ->
   VaultStore.encryptionKey (VaultStore.run VaultStore.initialState acts) <> None /\
   VaultStore.salt (VaultStore.run VaultStore.initialState acts) <> None) /\
  (forall s, VaultStore.isUnlocked (VaultStore.step s VaultStore.LockVault) = false /\
             VaultStore.encryptionKey (VaultStore.step s VaultStore.LockVault) = None /\
             VaultStore.items (VaultStore.step s VaultStore.LockVault) = []) /\
  (forall s, VaultStore.isUnlocked (VaultStore.step s VaultStore.Logout) = false /\
             VaultStore.encryptionKey (VaultStore.step s VaultStore.Logout) = None /\
             VaultStore.items (VaultStore.step s VaultStore.Logout) = []).
Proof.
  split; [|split; intros s; simpl; auto].
  apply run_unlocked_has_key; unfold unlocked_has_key; simpl; discriminate.
Qed.

(** ** Claims C1 and C2: the unlock handler *)

Section UnlockFacts.
Import VaultStore UnlockPage.
Context `{R : Runtime}.

Definition not_a_profile_write (c : RemoteCall) : Prop :=
  match c with UpdateProfile _ _ => False | _ => True end.

End UnlockFacts.

(** C1 (amended). [handleUnlock] does not check the derived key against
    anything.  Once a non-empty user id is set, the profile is fetched, the
    account is not locked, the derivation succeeds and the items are
    fetched, it
    installs the derived key ([isUnlocked = true]) and caches only the items
    that decrypt under it, even none, and reports no error, whatever the
    password.  It reports an error, leaving the store as it was, only when
    the user id is missing or empty, the account is locked, or a fetch or
    the derivation throws. *)
Theorem handleUnlock_installs_any_derived_key `{R : Runtime} :
  (forall (p : UnlockPage.PageState) env uid profile key rows,
     VaultStore.userId (UnlockPage.store p) = Some uid -> uid <> [] ->
     UnlockPage.env_profile env = Ok profile ->
     UnlockPage.lockedFor profile (UnlockPage.env_now env) (UnlockPage.env_now2 env) = None ->
     deriveEncryptionKey (UnlockPage.showPassword p) (UnlockPage.kdf_salt profile) = Ok key ->
     UnlockPage.env_vaultItems env = Ok rows ->
     let p' := fst (UnlockPage.handleUnlock p env) in
     VaultStore.isUnlocked (UnlockPage.store p') = true /\
     VaultStore.encryptionKey (UnlockPage.store p') = Some key /\
     VaultStore.salt (UnlockPage.store p') = Some (UnlockPage.kdf_salt profile) /\
     VaultStore.items (UnlockPage.store p') = UnlockPage.decryptAll key rows /\
     UnlockPage.pageError p' = None) /\
  (forall (p : UnlockPage.PageState) env e,
     snd (UnlockPage.unlockBody (UnlockPage.store p) (UnlockPage.showPassword p) env) = Err e ->
     let p' := fst (UnlockPage.handleUnlock p env) in
     UnlockPage.store p' = UnlockPage.store p /\ UnlockPage.pageError p' = Some e).
Proof.
  split.
  - intros p env uid profile key rows Hu Hne Hp Hl Hk Hr.
    unfold UnlockPage.handleUnlock, UnlockPage.unlockBody.
    rewrite Hu; destruct uid as [|z uid']; [congruence|].
    rewrite Hp, Hl, Hk, Hr; simpl; repeat split.
  - intros p env e He; unfold UnlockPage.handleUnlock.
    destruct (UnlockPage.unlockBody (UnlockPage.store p) (UnlockPage.showPassword p) env)
      as [calls r]; simpl in He; subst r; simpl; auto.
Qed.

(** C2 (amended). [handleUnlock] never writes the profile: the only calls
    it makes are [getProfile] and [getVaultItems], so no failed-attempt
    counter is incremented or reset and no lockout time is set.  Its only
    lockout behaviour is the read of [failed_unlock_locked_until]: when that
    time is later than now, the call fails with [AccountLocked] before any
    derivation or item fetch and leaves the store unchanged, whatever the
    password.  The minutes it reports are counted from a second clock
    read. *)
Theorem handleUnlock_lockout_read_only `{R : Runtime} :
  (forall (p : UnlockPage.PageState) env,
     Forall not_a_profile_write (snd (UnlockPage.handleUnlock p env))) /\
  (forall (p : UnlockPage.PageState) env uid profile m,
     VaultStore.userId (UnlockPage.store p) = Some uid -> uid <> [] ->
     UnlockPage.env_profile env = Ok profile ->
     UnlockPage.lockedFor profile (UnlockPage.env_now env) (UnlockPage.env_now2 env) = Some m ->
     UnlockPage.handleUnlock p env =
       ({| UnlockPage.store := UnlockPage.store p;
           UnlockPage.showPassword := UnlockPage.showPassword p;
           UnlockPage.loading := false;
           UnlockPage.pageError := Some (AccountLocked m) |},
        [UnlockPage.GetProfile uid])).
Proof.
  split.
  - intros p env; unfold UnlockPage.handleUnlock, UnlockPage.unlockBody.
    destruct (VaultStore.userId (UnlockPage.store p)) as [[|z uid]|];
      [simpl; constructor| |simpl; constructor].
    destruct (UnlockPage.env_profile env) as [profile|e];
      [|simpl; repeat constructor].
    destruct (UnlockPage.lockedFor profile (UnlockPage.env_now env) (UnlockPage.env_now2 env));
      [simpl; repeat constructor|].
    destruct (deriveEncryptionKey (UnlockPage.showPassword p) (UnlockPage.kdf_salt profile));
      [|simpl; repeat constructor].
    destruct (UnlockPage.env_vaultItems env); simpl; repeat constructor.
  - intros p env uid profile m Hu Hne Hp Hl.
    unfold UnlockPage.handleUnlock, UnlockPage.unlockBody.
    rewrite Hu; destruct uid as [|z uid']; [congruence|].
    rewrite Hp, Hl; reflexivity.
Qed.

(** ** Counterexamples and witnesses, run on [Mock.mockRuntime] *)

Lemma bytes_of_check (l : list Z) : forallb Mock.is_byteb l = true -> Forall is_byte l.
Proof.
  intros H; apply Forall_forall; intros x Hx.
  apply (proj1 (forallb_forall _ _) H) in Hx.
  unfold Mock.is_byteb in Hx; apply andb_prop in Hx as [H1 H2].
  apply Z.leb_le in H1; apply Z.ltb_lt in H2; unfold is_byte; lia.
Qed.

Ltac distinct_lits := let H := fresh in vm_compute; intros H; discriminate H.

Section Runs.
Import VaultStore UnlockPage Mock Examples.

(** C1, counterexample: with the registration item sealed under the key of
    [goodPw], an unlock with [wrongPw] finds that the item does not decrypt,
    yet installs the wrong key, sets [isUnlocked] and reports no error. *)
Lemma unlock_wrong_password_unlocks :
  decryptVaultItem (ciphertext row0) (iv row0) true = Err OperationError /\
  deriveEncryptionKey wrongPw salt0 = Ok true /\
  isUnlocked (store (fst (handleUnlock (page0 wrongPw) env0))) = true /\
  encryptionKey (store (fst (handleUnlock (page0 wrongPw) env0))) = Some true /\
  items (store (fst (handleUnlock (page0 wrongPw) env0))) = [] /\
  pageError (fst (handleUnlock (page0 wrongPw) env0)) = None.
Proof. vm_compute; repeat split; reflexivity. Qed.

(** C1, witness. *)
Lemma handleUnlock_installs_any_derived_key_witness :
  userId (store (page0 wrongPw)) = Some (lit "user-1") /\
  env_profile env0 = Ok profile0 /\
  lockedFor profile0 (env_now env0) (env_now2 env0) = None /\
  deriveEncryptionKey (showPassword (page0 wrongPw)) (kdf_salt profile0) = Ok true /\
  env_vaultItems env0 = Ok [row0] /\
  isUnlocked (store (fst (handleUnlock (page0 wrongPw) env0))) = true.
Proof.
  assert (Hs := proj1 (@handleUnlock_installs_any_derived_key mockRuntime)
                  (page0 wrongPw) env0 (lit "user-1") profile0 true [row0]
                  eq_refl ltac:(distinct_lits) eq_refl eq_refl
                  ltac:(vm_compute; reflexivity) eq_refl).
  split; [reflexivity|]; split; [reflexivity|]; split; [reflexivity|].
  split; [vm_compute; reflexivity|]; split; [reflexivity|].
  exact (proj1 Hs).
Defined.

(** C2, counterexample: a wrong-password attempt whose only item fails to
    decrypt makes no profile write (no counter increment), and a
    correct-password unlock against the same profile then succeeds. *)
Lemma failed_unlock_not_counted :
  decryptVaultItem (ciphertext row0) (iv row0) true = Err OperationError /\
  snd (handleUnlock (page0 wrongPw) env0) =
    [GetProfile (lit "user-1"); GetVaultItems (lit "user-1")] /\
  pageError (fst (handleUnlock (page0 goodPw) env0)) = None /\
  isUnlocked (store (fst (handleUnlock (page0 goodPw) env0))) = true.
Proof. vm_compute; repeat split; reflexivity. Qed.

(** C2, witness: the locked profile refuses the correct password. *)
Lemma handleUnlock_lockout_read_only_witness :
  lockedFor (match env_profile envLocked with Ok p => p | Err _ => profile0 end)
            (env_now envLocked) (env_now2 envLocked) = Some 84 /\
  handleUnlock (page0 goodPw) envLocked =
    ({| store := store (page0 goodPw); showPassword := goodPw; loading := false;
        pageError := Some (AccountLocked 84) |}, [GetProfile (lit "user-1")]).
Proof.
  split; [vm_compute; reflexivity|].
  exact (proj2 (@handleUnlock_lockout_read_only mockRuntime) (page0 goodPw) envLocked
           (lit "user-1") _ 84 eq_refl ltac:(distinct_lits) eq_refl
           ltac:(vm_compute; reflexivity)).
Defined.

(** C3, witness. *)
Lemma encryptVaultItem_roundtrip_witness :
  encryptVaultItem payload0 false rnd0 = Ok (fst sealed0, snd sealed0) /\
  decryptVaultItem (fst sealed0) (snd sealed0) false = Ok payload0.
Proof.
  split; [vm_compute; reflexivity|].
  apply (@encryptVaultItem_roundtrip mockRuntime mockLaws payload0 false rnd0);
    [apply bytes_of_check | | |]; vm_compute; reflexivity.
Defined.

(** C4, witness. *)
Lemma deriveKeys_deterministic_split_witness :
  deriveKeys goodPw salt0 = Ok (false, [100; 101; 102] ++ repeat 0 29) /\
  exists pk salt km h,
    importPbkdf2Key (textEncode goodPw) = Some pk /\
    base64ToBuffer salt0 = Ok salt /\
    deriveBitsPbkdf2 pk salt 600000 "SHA-256" 512 = Some km /\
    importAesGcmKey (firstn 32 km) 256 = Some false /\
    digest "SHA-256" (firstn 32 (skipn 32 km)) = Some h /\
    bufferToBase64 h = Ok ([100; 101; 102] ++ repeat 0 29).
Proof.
  split; [vm_compute; reflexivity|].
  apply (proj2 (@deriveKeys_deterministic_split mockRuntime goodPw salt0));
    vm_compute; reflexivity.
Defined.

(** C5, witness: the sealed example item, its bytes and nonce. *)
Lemma decrypt_tamper_witness :
  encrypt (lit "u@example.com") false None rnd0 = Ok (fst sealed0, snd sealed0) /\
  base64ToBuffer (fst sealed0) = Ok (fst sealed0) /\
  base64ToBuffer (snd sealed0) = Ok rnd0 /\
  decrypt (fst sealed0) (snd sealed0) true = Err OperationError /\
  decryptVaultItem (fst sealed0) (snd sealed0) true = Err OperationError.
Proof.
  split; [vm_compute; reflexivity|].
  split; [vm_compute; reflexivity|].
  split; [vm_compute; reflexivity|].
  refine (proj2 (proj2 (@decrypt_tamper mockRuntime mockLaws mockIdeal
            (lit "u@example.com") false None rnd0 (fst sealed0) (snd sealed0)
            (fst sealed0) rnd0 _ _ _ _)) true _);
    [ apply bytes_of_check; vm_compute; reflexivity
    | vm_compute; reflexivity | vm_compute; reflexivity | vm_compute; reflexivity
    | discriminate ].
Defined.

(** C6, counterexample: an 8-byte salt is accepted and both keys are
    returned. *)
Lemma deriveKeys_short_salt_accepted :
  base64ToBuffer shortSalt = Ok shortSalt /\
  List.length shortSalt = 8%nat /\
  deriveKeys goodPw shortSalt = Ok (false, repeat 0 32).
Proof. vm_compute; repeat split; reflexivity. Qed.

(** C6, witness. *)
Lemma deriveKeys_any_salt_length_witness :
  deriveKeys goodPw shortSalt = Ok (false, repeat 0 32).
Proof.
  apply (@deriveKeys_any_salt_length mockRuntime goodPw shortSalt shortSalt
           (textEncode goodPw) (firstn 64 (textEncode goodPw ++ shortSalt ++ repeat 0 64))
           false (repeat 0 32));
    vm_compute; reflexivity.
Defined.

(** C7, counterexample: [encrypt] takes the caller's nonce, and two calls
    with the same nonce, key and plaintext but different random draws return
    the same ciphertext and the same nonce. *)
Lemma encrypt_reuses_supplied_nonce :
  encrypt (lit "x") false (Some rnd0) (repeat 1 12) =
    encrypt (lit "x") false (Some rnd0) (repeat 2 12) /\
  encrypt (lit "x") false (Some rnd0) (repeat 1 12) =
    Ok (0 :: rnd0 ++ [120; 120], rnd0).
Proof. vm_compute; split; reflexivity. Qed.

(** C7, witness. *)
Lemma seal_nonce_witness :
  base64ToBuffer (snd sealed0) = Ok rnd0 /\
  snd sealed0 <> repeat 8 12 /\
  encrypt (lit "x") false (Some rnd0) (repeat 1 12) =
    encrypt (lit "x") false (Some rnd0) (repeat 2 12).
Proof.
  destruct (@seal_nonce mockRuntime mockLaws) as (S1 & S2 & S3).
  split; [|split].
  - apply (S1 payload0 false rnd0 (fst sealed0) (snd sealed0));
      [apply bytes_of_check |]; vm_compute; reflexivity.
  - apply (S2 payload0 payload0 false false rnd0 (repeat 8 12) (fst sealed0)
             (snd sealed0)
             (fst (match @encryptVaultItem mockRuntime payload0 false (repeat 8 12) with
                   | Ok out => out | Err _ => ([], []) end))
             (repeat 8 12));
      [apply bytes_of_check; vm_compute; reflexivity
      |apply bytes_of_check; vm_compute; reflexivity
      |discriminate
      |vm_compute; reflexivity
      |vm_compute; reflexivity].
  - apply S3; discriminate.
Defined.

(** C10, witness. *)
Lemma store_unlocked_implies_key_witness :
  isUnlocked (run initialState [SetAuthenticated (lit "user-1") (lit "a@b.c");
                                SetUnlocked true salt0]) = true /\
  encryptionKey (run initialState [SetAuthenticated (lit "user-1") (lit "a@b.c");
                                   SetUnlocked true salt0]) <> None.
Proof.
  assert (W := proj1 (@store_unlocked_implies_key mockRuntime
             [SetAuthenticated (lit "user-1") (lit "a@b.c"); SetUnlocked true salt0])
             ltac:(vm_compute; reflexivity)).
  split; [vm_compute; reflexivity | exact (proj1 W)].
Defined.

End Runs.

(** * Further properties of the code *)

(** ** Helpers *)

Lemma jsstring_eqb_true (a b : jsstring) : VaultStore.jsstring_eqb a b = true <-> a = b.
Proof.
  unfold VaultStore.jsstring_eqb; destruct (list_eq_dec Z.eq_dec a b); split;
    congruence.
Qed.

Lemma jsstring_eqb_refl (a : jsstring) : VaultStore.jsstring_eqb a a = true.
Proof. apply jsstring_eqb_true; reflexivity. Qed.

Lemma jsstring_eqb_false (a b : jsstring) : a <> b -> VaultStore.jsstring_eqb a b = false.
Proof.
  intros Hne; destruct (VaultStore.jsstring_eqb a b) eqn:E; [|reflexivity].
  apply jsstring_eqb_true in E; contradiction.
Qed.

Lemma strength_points_eq (pw : jsstring) :
  estimatePasswordStrength pw =
  Z.min (strength_points (Z.of_nat (List.length pw))
           (re_lower pw) (re_upper pw) (re_digit pw) (re_symbol pw)) 100.
Proof. reflexivity. Qed.

Lemma strength_points_sum (len : Z) (lo up dg sy : bool) :
  strength_points len lo up dg sy =
  (if len >=? 8 then 10 else 0) + (if len >=? 12 then 10 else 0)
  + (if len >=? 16 then 10 else 0) + (if len >=? 20 then 10 else 0)
  + (if lo then 10 else 0) + (if up then 10 else 0) + (if dg then 10 else 0)
  + (if sy then 20 else 0)
  + (if (len >=? 16) && lo && up && dg && sy then 20 else 0).
Proof.
  unfold strength_points.
  destruct (len >=? 8), (len >=? 12), (len >=? 16), (len >=? 20), lo, up, dg, sy;
    reflexivity.
Qed.

Lemma if_mono (b b' : bool) (k : Z) :
  0 <= k -> (b = true -> b' = true) -> (if b then k else 0) <= (if b' then k else 0).
Proof. destruct b, b'; intros Hk Hi; try lia; discriminate (Hi eq_refl). Qed.

Lemma geb_mono (len len' t : Z) :
  len <= len' -> (len >=? t) = true -> (len' >=? t) = true.
Proof. rewrite !Z.geb_le; lia. Qed.

Lemma strength_points_mono (len len' : Z) (lo up dg sy lo' up' dg' sy' : bool) :
  len <= len' -> (lo = true -> lo' = true) -> (up = true -> up' = true) ->
  (dg = true -> dg' = true) -> (sy = true -> sy' = true) ->
  strength_points len lo up dg sy <= strength_points len' lo' up' dg' sy'.
Proof.
  intros Hl Hlo Hup Hdg Hsy; rewrite !strength_points_sum.
  assert (T8 := if_mono _ _ 10 ltac:(lia) (geb_mono len len' 8 Hl)).
  assert (T12 := if_mono _ _ 10 ltac:(lia) (geb_mono len len' 12 Hl)).
  assert (T16 := if_mono _ _ 10 ltac:(lia) (geb_mono len len' 16 Hl)).
  assert (T20 := if_mono _ _ 10 ltac:(lia) (geb_mono len len' 20 Hl)).
  assert (Tlo := if_mono _ _ 10 ltac:(lia) Hlo).
  assert (Tup := if_mono _ _ 10 ltac:(lia) Hup).
  assert (Tdg := if_mono _ _ 10 ltac:(lia) Hdg).
  assert (Tsy := if_mono _ _ 20 ltac:(lia) Hsy).
  assert (Tb : (if (len >=? 16) && lo && up && dg && sy then 20 else 0)
               <= (if (len' >=? 16) && lo' && up' && dg' && sy' then 20 else 0)).
  { apply if_mono; [lia|]; rewrite !andb_true_iff; intros [[[[H16 H1] H2] H3] H4].
    repeat split; auto; exact (geb_mono len len' 16 Hl H16). }
  lia.
Qed.

Lemma existsb_app_impl (f : Z -> bool) (a b : list Z) :
  existsb f a = true -> existsb f (a ++ b) = true.
Proof. rewrite existsb_app; intros ->; reflexivity. Qed.

Lemma some_class (pw : jsstring) :
  pw <> [] -> re_lower pw || re_upper pw || re_digit pw || re_symbol pw = true.
Proof.
  destruct pw as [|c r]; [congruence|]; intros _.
  unfold re_lower, re_upper, re_digit, re_symbol; simpl.
  destruct (in_range 97 122 c), (in_range 65 90 c), (in_range 48 57 c); simpl;
    rewrite ?orb_true_r; reflexivity.
Qed.

Lemma lower_only_classes (pw : jsstring) :
  Forall (fun c => in_range 97 122 c = true) pw ->
  re_upper pw = false /\ re_digit pw = false /\ re_symbol pw = false.
Proof.
  induction 1 as [|c r Hc _ IH]; [repeat split|].
  unfold re_upper, re_digit, re_symbol in *; simpl.
  destruct IH as (-> & -> & ->).
  unfold in_range in *; apply andb_true_iff in Hc as [H1 H2].
  apply Z.leb_le in H1; apply Z.leb_le in H2.
  assert (E1 : (65 <=? c) && (c <=? 90) = false)
    by (destruct (c <=? 90) eqn:E; [apply Z.leb_le in E; lia | apply andb_false_r]).
  assert (E2 : (48 <=? c) && (c <=? 57) = false)
    by (destruct (c <=? 57) eqn:E; [apply Z.leb_le in E; lia | apply andb_false_r]).
  assert (E3 : (97 <=? c) && (c <=? 122) = true)
    by (apply andb_true_iff; split; apply Z.leb_le; lia).
  rewrite E1, E2, E3; repeat split.
Qed.

Lemma charset_pieces_nonempty :
  uppercase <> [] /\ lowercase <> [] /\ numbers <> [] /\ symbols <> [].
Proof. vm_compute; repeat split; discriminate. Qed.

Lemma in_charsetOf (o : PasswordOptions) (c : Z) :
  In c (charsetOf o) ->
  (includeUppercase o = true /\ In c uppercase) \/
  (includeLowercase o = true /\ In c lowercase) \/
  (includeNumbers o = true /\ In c numbers) \/
  (includeSymbols o = true /\ In c symbols) \/
  (includeUppercase o = false /\ includeLowercase o = false /\
   includeNumbers o = false /\ includeSymbols o = false /\
   (In c lowercase \/ In c numbers)).
Proof.
  destruct charset_pieces_nonempty as (NU & NL & NN & NS).
  destruct o as [n U L N S]; unfold charsetOf;
    cbn [includeUppercase includeLowercase includeNumbers includeSymbols].
  destruct ((if U then uppercase else []) ++ (if L then lowercase else [])
            ++ (if N then numbers else []) ++ (if S then symbols else []))
    as [|x r] eqn:E.
  - intros Hc; apply in_app_iff in Hc.
    apply app_eq_nil in E as [E1 E]; apply app_eq_nil in E as [E2 E];
      apply app_eq_nil in E as [E3 E4].
    destruct U; [contradiction|]; destruct L; [contradiction|];
      destruct N; [contradiction|]; destruct S; [contradiction|].
    right; right; right; right; tauto.
  - rewrite <- E; intros Hc; rewrite !in_app_iff in Hc.
    destruct U, L, N, S; cbv beta iota in Hc; rewrite ?in_nil in Hc;
      intuition (try apply in_nil in H; try contradiction; auto).
Qed.

Lemma login_signin_inv `{R : Runtime} (email P : jsstring) (lenv : AuthPages.LoginEnv)
    (e pw' : jsstring) :
  In (AuthPages.SignInWithPassword e pw') (fst (AuthPages.handleLogin email P lenv)) ->
  e = email /\ exists s k V, AuthPages.env_userSalt lenv = Ok (Some s) /\ s <> [] /\
    deriveKeys P s = Ok (k, V) /\ pw' = firstn 60 V.
Proof.
  unfold AuthPages.handleLogin.
  destruct (AuthPages.env_userSalt lenv) as [[[|x s]|]|err] eqn:Es;
    try (simpl; intros [H|[]]; discriminate).
  destruct (deriveKeys P (x :: s)) as [[k V]|err] eqn:Ed;
    [|simpl; intros [H|[]]; discriminate].
  intros Hin; assert (Hin' : In (AuthPages.SignInWithPassword e pw')
                                [AuthPages.RpcGetUserSalt email;
                                 AuthPages.SignInWithPassword email (firstn 60 V)])
    by (destruct (AuthPages.env_signIn lenv); exact Hin).
  simpl in Hin'; destruct Hin' as [H|[H|[]]]; [discriminate|].
  injection H as <- <-; split; [reflexivity|].
  exists (x :: s), k, V; repeat split; auto; discriminate.
Qed.

Lemma jsstring_eqb_sym (a b : jsstring) :
  VaultStore.jsstring_eqb a b = VaultStore.jsstring_eqb b a.
Proof.
  destruct (VaultStore.jsstring_eqb b a) eqn:E.
  - apply jsstring_eqb_true in E; subst; apply jsstring_eqb_refl.
  - apply jsstring_eqb_false; intros ->; rewrite jsstring_eqb_refl in E; discriminate.
Qed.

Lemma obj_get_set {V} (m : VaultPage.JsObject V) (k k' : jsstring) (v : V) :
  VaultPage.obj_get (VaultPage.obj_set m k v) k' =
  if VaultStore.jsstring_eqb k' k then Some v else VaultPage.obj_get m k'.
Proof.
  induction m as [|[k0 v0] rest IH]; simpl.
  - rewrite jsstring_eqb_sym; destruct (VaultStore.jsstring_eqb k' k); reflexivity.
  - destruct (VaultStore.jsstring_eqb k0 k) eqn:E0; simpl.
    + apply jsstring_eqb_true in E0; subst k0.
      rewrite (jsstring_eqb_sym k k'); destruct (VaultStore.jsstring_eqb k' k); reflexivity.
    + rewrite IH.
      destruct (VaultStore.jsstring_eqb k0 k') eqn:E1; [|reflexivity].
      apply jsstring_eqb_true in E1; subst k0.
      rewrite E0; reflexivity.
Qed.

Lemma obj_get_delete {V} (m : VaultPage.JsObject V) (k k' : jsstring) :
  VaultPage.obj_get (VaultPage.obj_delete m k) k' =
  if VaultStore.jsstring_eqb k' k then None else VaultPage.obj_get m k'.
Proof.
  unfold VaultPage.obj_delete.
  induction m as [|[k0 v0] rest IH]; simpl.
  - destruct (VaultStore.jsstring_eqb k' k); reflexivity.
  - destruct (VaultStore.jsstring_eqb k0 k) eqn:E0; simpl.
    + rewrite IH; apply jsstring_eqb_true in E0; subst k0.
      destruct (VaultStore.jsstring_eqb k' k) eqn:E2; [reflexivity|].
      rewrite jsstring_eqb_sym, E2; reflexivity.
    + destruct (VaultStore.jsstring_eqb k0 k') eqn:E1.
      * apply jsstring_eqb_true in E1; subst k0.
        rewrite E0; reflexivity.
      * exact IH.
Qed.

Lemma startsWith_nil (s : jsstring) : VaultPage.startsWith s [] = true.
Proof. destruct s; reflexivity. Qed.

Lemma includes_nil (s : jsstring) : VaultPage.includes s [] = true.
Proof. destruct s; simpl; reflexivity. Qed.

Lemma startsWith_refl (s : jsstring) : VaultPage.startsWith s s = true.
Proof. induction s as [|x s IH]; simpl; [reflexivity|]; rewrite Z.eqb_refl; exact IH. Qed.

Lemma includes_refl (s : jsstring) : VaultPage.includes s s = true.
Proof. destruct s as [|x s]; simpl; [reflexivity|]; rewrite Z.eqb_refl, startsWith_refl; reflexivity. Qed.

Section EncryptOpens.
Context `{RL : RuntimeLaws}.

Lemma encrypt_opens (pt : jsstring) (K : CryptoKey)
    (ivopt : option jsstring) (rnd : list Z) (c ivs : jsstring) :
  Forall is_byte rnd ->
  encrypt pt K ivopt rnd = Ok (c, ivs) ->
  decrypt c ivs K = Ok (textDecode (textEncode pt)).
Proof.
  intros Hr Henc.
  destruct (encrypt_inv _ _ _ _ _ _ Henc) as (ivb & e & Eiv & Ee & Ec & Ei).
  pose proof (nonce_choice_bytes _ _ _ Hr Eiv) as Hb.
  assert (He : Forall is_byte e) by exact (aes_bytes _ _ _ _ Hb (textEncode_bytes _) Ee).
  unfold decrypt.
  rewrite (base64_roundtrip e c He Ec); simpl.
  rewrite (base64_roundtrip ivb ivs Hb Ei); simpl.
  rewrite (aes_roundtrip _ _ _ _ Ee); reflexivity.
Qed.

End EncryptOpens.

(** ** The crypto service *)

Section ExtraCrypto.
Context `{RL : RuntimeLaws}.

(** X1. Whatever nonce [encrypt] uses (the random draw, or a caller-supplied
    base64 nonce), decrypting the [(ciphertext, iv)] it returns under the
    same key gives back the plaintext as [TextDecoder] reads its UTF-8
    encoding. *)
Theorem encrypt_decrypt_roundtrip (pt : jsstring) (K : CryptoKey)
    (ivopt : option jsstring) (rnd : list Z) (c ivs : jsstring) :
  Forall is_byte rnd ->
  encrypt pt K ivopt rnd = Ok (c, ivs) ->
  decrypt c ivs K = Ok (textDecode (textEncode pt)).
Proof. exact (encrypt_opens pt K ivopt rnd c ivs). Qed.

(** X2. [generateSalt] and [generateIV] return the base64 of their random
    bytes: it always succeeds and decodes back to exactly those bytes.  A
    non-empty nonce from [generateIV], passed to [encrypt], makes it behave
    as if it had drawn those bytes itself. *)
Theorem generateSalt_generateIV_decode (rnd : list Z) :
  Forall is_byte rnd ->
  (exists s, generateSalt rnd = Ok s /\ base64ToBuffer s = Ok rnd) /\
  (exists s, generateIV rnd = Ok s /\ base64ToBuffer s = Ok rnd) /\
  (forall s, generateIV rnd = Ok s -> s <> [] ->
     forall pt K rnd', encrypt pt K (Some s) rnd' = encrypt pt K None rnd).
Proof.
  intros Hr; destruct (bufferToBase64_total rnd Hr) as [s Hs].
  assert (Hd : base64ToBuffer s = Ok rnd) by exact (base64_roundtrip _ _ Hr Hs).
  split; [exists s; split; [exact Hs | exact Hd]|].
  split; [exists s; split; [exact Hs | exact Hd]|].
  intros s' Hs' Hne pt K rnd'; unfold generateIV in Hs'; rewrite Hs in Hs';
    injection Hs' as <-.
  unfold encrypt; destruct s as [|x s]; [congruence|]; rewrite Hd; reflexivity.
Qed.

End ExtraCrypto.

(** ** The generator and the strength estimate *)

(** X3. For any options and any random words, [generatePassword] returns
    exactly [length] characters, each from an enabled class; when no class
    is enabled, each is a lowercase letter or a digit. *)
Theorem generatePassword_enabled_classes (o : PasswordOptions) (rnd : nat -> Z) :
  List.length (generatePassword o rnd) = length_opt o /\
  Forall (fun c =>
      (includeUppercase o = true /\ In c uppercase) \/
      (includeLowercase o = true /\ In c lowercase) \/
      (includeNumbers o = true /\ In c numbers) \/
      (includeSymbols o = true /\ In c symbols) \/
      (includeUppercase o = false /\ includeLowercase o = false /\
       includeNumbers o = false /\ includeSymbols o = false /\
       (In c lowercase \/ In c numbers)))
    (generatePassword o rnd).
Proof.
  destruct (generatePassword_shape o rnd) as [Hl Hf]; split; [exact Hl|].
  eapply Forall_impl; [|exact Hf]; intros c Hc; exact (in_charsetOf o c Hc).
Qed.

(** X4. Appending characters never lowers the strength score. *)
Theorem estimatePasswordStrength_monotone (pw ext : jsstring) :
  estimatePasswordStrength pw <= estimatePasswordStrength (pw ++ ext).
Proof.
  rewrite !strength_points_eq; apply Z.min_le_compat_r.
  apply strength_points_mono.
  - rewrite length_app; lia.
  - apply existsb_app_impl.
  - apply existsb_app_impl.
  - apply existsb_app_impl.
  - apply existsb_app_impl.
Qed.

(** X5. The registration form's [handleContinue] moves on to the warning
    step for every password of at least 20 characters typed twice the same,
    whatever its characters; it refuses every password made of lowercase
    ASCII letters only that is shorter than 20 characters. *)
Theorem handleContinue_length_vs_classes :
  (forall pw : jsstring, (20 <= List.length pw)%nat ->
     AuthPages.handleContinue pw pw = AuthPages.GoToWarning) /\
  (forall pw confirm : jsstring,
     Forall (fun c => in_range 97 122 c = true) pw -> (List.length pw < 20)%nat ->
     AuthPages.handleContinue pw confirm <> AuthPages.GoToWarning).
Proof.
  split.
  - intros pw Hl; unfold AuthPages.handleContinue.
    rewrite jsstring_eqb_refl; simpl negb; cbv iota.
    assert (E12 : (List.length pw <? 12)%nat = false) by (apply Nat.ltb_ge; lia).
    rewrite E12.
    assert (Hs : 50 <= estimatePasswordStrength pw).
    { rewrite strength_points_eq, strength_points_sum.
      assert (Hne : pw <> []) by (intros ->; simpl in Hl; lia).
      pose proof (some_class pw Hne) as Hc.
      set (len := Z.of_nat (List.length pw)).
      assert (Hlen : 20 <= len) by (unfold len; lia).
      assert (G : forall t, t <= 20 -> (len >=? t) = true)
        by (intros t Ht; apply Z.geb_le; lia).
      rewrite (G 8), (G 12), (G 16), (G 20) by lia.
      destruct (re_lower pw), (re_upper pw), (re_digit pw), (re_symbol pw);
        simpl in Hc; try discriminate; simpl; lia. }
    destruct (estimatePasswordStrength pw <? 50) eqn:E; [apply Z.ltb_lt in E; lia|].
    reflexivity.
  - intros pw confirm Hlow Hl; unfold AuthPages.handleContinue.
    destruct (negb (VaultStore.jsstring_eqb pw confirm)); [discriminate|].
    destruct (List.length pw <? 12)%nat; [discriminate|].
    assert (Hs : estimatePasswordStrength pw < 50).
    { rewrite strength_points_eq, strength_points_sum.
      destruct (lower_only_classes pw Hlow) as (-> & -> & ->).
      set (len := Z.of_nat (List.length pw)).
      assert (E20 : (len >=? 20) = false) by (rewrite Z.geb_leb; apply Z.leb_gt; unfold len; lia).
      rewrite E20, !andb_false_r.
      destruct (len >=? 8), (len >=? 12), (len >=? 16), (re_lower pw); simpl; lia. }
    apply Z.ltb_lt in Hs; rewrite Hs; discriminate.
Qed.

(** ** The lockout check of [handleUnlock] *)

(** X6. When the profile is locked at the first clock read [now], the
    minutes [handleUnlock] reports are the lock time left at the second read
    [now2], rounded up to whole minutes: [m] minutes cover it and [m - 1]
    do not.  When the second read is no later than the first, that is at
    least 1 minute; when the lock has expired by the second read, it is 0 or
    less. *)
Theorem lockedFor_minutes `{R : Runtime} (p : UnlockPage.Profile) (now now2 m : Z) :
  UnlockPage.lockedFor p now now2 = Some m ->
  exists t, UnlockPage.failed_unlock_locked_until p = Some t /\ now < t /\
    (m - 1) * 60000 < t - now2 <= m * 60000 /\
    (now2 <= now -> 1 <= m) /\
    (t <= now2 -> m <= 0).
Proof.
  unfold UnlockPage.lockedFor.
  destruct (UnlockPage.failed_unlock_locked_until p) as [t|]; [|discriminate].
  destruct (now <? t) eqn:E; [|discriminate].
  apply Z.ltb_lt in E; intros H; injection H as <-.
  exists t; split; [reflexivity|]; split; [exact E|].
  pose proof (Z.div_mod (t - now2 + 59999) 60000 ltac:(lia)) as Hd.
  pose proof (Z.mod_pos_bound (t - now2 + 59999) 60000 ltac:(lia)) as Hm.
  set (q := (t - now2 + 59999) / 60000) in *.
  set (r := (t - now2 + 59999) mod 60000) in *.
  repeat split; intros; lia.
Qed.

(** ** The session store *)

Section ExtraStore.
Import VaultStore.
Context `{R : Runtime}.

(** X7. [removeItem(id)] keeps exactly the cached items with another id, in
    their order: a kept item has only items that were before it still
    before it, and only items that were after it still after it.  So adding
    an item whose id is not yet cached and then removing that id gives back
    the item list as it was. *)
Theorem store_add_then_remove (s : VaultState) (it : DecryptedVaultItem) :
  ~ In (id it) (map (fun x : DecryptedVaultItem => id x) (items s)) ->
  items (step (step s (AddItem it)) (RemoveItem (id it))) = items s /\
  (forall i x, In x (items (step s (RemoveItem i))) <-> In x (items s) /\ id x <> i) /\
  (forall i l1 x l2, items s = l1 ++ x :: l2 -> id x <> i ->
     exists l1' l2', items (step s (RemoveItem i)) = l1' ++ x :: l2' /\
       incl l1' l1 /\ incl l2' l2).
Proof.
  intros Hfresh; split.
  - simpl; rewrite jsstring_eqb_refl; simpl.
    induction (items s) as [|y ys IH]; [reflexivity|]; simpl in *.
    rewrite (jsstring_eqb_false (id y) (id it)) by (intros E; apply Hfresh; left; exact E).
    simpl; f_equal; apply IH; intros H; apply Hfresh; right; exact H.
  - split.
    + intros i x; simpl; rewrite filter_In, negb_true_iff.
      split; intros [Hx Hi]; split; auto.
      * intros E; subst; rewrite jsstring_eqb_refl in Hi; discriminate.
      * apply jsstring_eqb_false; exact Hi.
    + intros i l1 x l2 Hs Hne; simpl; rewrite Hs, filter_app; simpl.
      rewrite jsstring_eqb_false by exact Hne; simpl.
      eexists; eexists; split; [reflexivity|].
      split; intros y Hy; apply filter_In in Hy; tauto.
Qed.

(** X8. [updateItem(id, updates)] with updates that carry no [id] keeps the
    ids of the cached items, in order, and leaves every item with another
    id as it was. *)
Theorem store_updateItem_keeps_ids (s : VaultState) (i : jsstring)
    (u : PartialDecryptedVaultItem) :
  p_id u = None ->
  map (fun x : DecryptedVaultItem => id x) (items (step s (UpdateItem i u)))
    = map (fun x : DecryptedVaultItem => id x) (items s) /\
  (forall x, In x (items s) -> id x <> i -> In x (items (step s (UpdateItem i u)))).
Proof.
  intros Hu; simpl; split.
  - rewrite map_map; apply map_ext; intros x.
    destruct (jsstring_eqb (id x) i); [|reflexivity].
    unfold spread; simpl; rewrite Hu; reflexivity.
  - intros x Hx Hne; apply in_map_iff; exists x; split; [|exact Hx].
    rewrite jsstring_eqb_false by exact Hne; reflexivity.
Qed.

(** X9. Only [setUnlocked] installs a key: from a state with no key that is
    not unlocked, a sequence of actions without [setUnlocked] leaves the
    store without a key and not unlocked. *)
Theorem store_key_only_from_setUnlocked (s : VaultState) (acts : list VaultAction) :
  encryptionKey s = None -> isUnlocked s = false ->
  forallb (fun a => negb (isSetUnlocked a)) acts = true ->
  encryptionKey (run s acts) = None /\ isUnlocked (run s acts) = false.
Proof.
  unfold run; revert s; induction acts as [|a acts IH]; intros s Hk Hu Ha;
    [split; assumption|].
  simpl in Ha; apply andb_true_iff in Ha as [Ha Hr]; simpl.
  apply IH; [| |exact Hr]; destruct a; simpl in *; auto; discriminate.
Qed.

End ExtraStore.

(** ** The vault page and its settings dialog *)

Section ExtraPageLemmas.
Import VaultStore VaultPage.
Context `{R : Runtime}.

Lemma idle_ticks (st : VaultState) (rv : JsObject jsstring) (m : nat) (idle : Z) :
  isUnlocked st = true -> 0 <= idle -> idle + Z.of_nat m < 300 ->
  runIdle (idle, st, rv) (repeat Tick m) = (idle + Z.of_nat m, st, rv).
Proof.
  intros Hu; revert idle; induction m as [|m IH]; intros idle H0 Hm.
  - simpl; rewrite Z.add_0_r; reflexivity.
  - unfold runIdle in *; cbn [repeat fold_left].
    unfold idleStep at 2; rewrite Hu.
    assert (E : (idle + 1 >=? pageAutoLockMinutes * 60) = false)
      by (unfold pageAutoLockMinutes; rewrite Z.geb_leb; apply Z.leb_gt; lia).
    rewrite E, IH by lia; f_equal; f_equal; lia.
Qed.

End ExtraPageLemmas.

Section ExtraPage.
Import VaultStore VaultPage.
Context `{R : Runtime}.

(** X10. [handleRevealPassword(item)] makes [revealedPasswords[item.id]]
    the item's password and changes no other own property;
    [handleHidePassword(id)] removes that property and changes no other;
    revealing and then hiding an item leaves the same properties as hiding
    it alone. *)
Theorem reveal_hide_passwords (m : JsObject jsstring) (it : DecryptedVaultItem)
    (i k : jsstring) :
  obj_get (handleRevealPassword m it) k =
    (if jsstring_eqb k (id it) then Some (password it) else obj_get m k) /\
  obj_get (handleHidePassword m i) k =
    (if jsstring_eqb k i then None else obj_get m k) /\
  obj_get (handleHidePassword (handleRevealPassword m it) (id it)) k =
    obj_get (handleHidePassword m (id it)) k.
Proof.
  unfold handleRevealPassword, handleHidePassword.
  split; [apply obj_get_set|split; [apply obj_get_delete|]].
  rewrite !obj_get_delete, obj_get_set.
  destruct (jsstring_eqb k (id it)); reflexivity.
Qed.

(** X11. [handleToggleFavorite(itemId, currentStatus)] sends one update of
    [is_favorite] to [!currentStatus], filtered by the item id and the
    session's user id.  When the update fails the store is unchanged.  When
    it succeeds, the items with that id get [is_favorite = !currentStatus]
    and nothing else of any item changes. *)
Theorem handleToggleFavorite_effect (st : VaultState) (itemId : jsstring) (cur : bool)
    (remote : result unit) :
  fst (handleToggleFavorite st itemId cur remote)
    = [UpdateFavorite itemId (userId st) (negb cur)] /\
  (forall e, remote = Err e -> snd (handleToggleFavorite st itemId cur remote) = st) /\
  (remote = Ok tt ->
   Forall2 (fun old nw : DecryptedVaultItem =>
       is_favorite nw = (if jsstring_eqb (id old) itemId then negb cur else is_favorite old) /\
       id nw = id old /\ title nw = title old /\ ciphertext nw = ciphertext old /\
       iv nw = iv old /\ auth_tag nw = auth_tag old /\
       category_id nw = category_id old /\ last_accessed nw = last_accessed old /\
       last_modified nw = last_modified old /\ created_at nw = created_at old /\
       username nw = username old /\ password nw = password old /\
       url nw = url old /\ notes nw = notes old)
     (items st) (items (snd (handleToggleFavorite st itemId cur remote)))).
Proof.
  split; [destruct remote; reflexivity|].
  split; [intros e ->; reflexivity|].
  intros ->; simpl.
  induction (items st) as [|x xs IH]; constructor; [|exact IH].
  destruct (jsstring_eqb (id x) itemId); repeat split.
Qed.

(** X12. [handleUpdateItem(data)] does nothing without a selected item or a
    key.  Otherwise it either fails, leaving the store unchanged with the
    error "Failed to update item", or it sends one update of the row of the
    selected id (filtered by the session's user id) whose ciphertext opens
    under the session key to the JSON of the form, and gives every cached
    item with that id the same title, ciphertext and nonce, and the form's
    username, password, url and notes. *)
Theorem handleUpdateItem_effect `{RL : !RuntimeLaws} (stringifyForm : ItemForm -> jsstring)
    (st : VaultState) (sel : option DecryptedVaultItem) (err : option jsstring)
    (data : ItemForm) (rnd : list Z) (remote : result unit) (now1 now2 : jsstring)
    (calls : list DbCall) (st' : VaultState) (err' : option jsstring) :
  Forall is_byte rnd ->
  handleUpdateItem stringifyForm st sel err data rnd remote now1 now2 = (calls, st', err') ->
  ((sel = None \/ encryptionKey st = None) -> calls = [] /\ st' = st /\ err' = err) /\
  (forall s key, sel = Some s -> encryptionKey st = Some key ->
     (st' = st /\ err' = Some (lit "Failed to update item")) \/
     (exists c ivs, remote = Ok tt /\
        calls = [UpdateContent (id s) (userId st) (form_title data) c ivs now1] /\
        decrypt c ivs key = Ok (textDecode (textEncode (stringifyForm data))) /\
        err' = err /\
        Forall (fun x : DecryptedVaultItem => id x = id s ->
                  title x = form_title data /\ ciphertext x = c /\ iv x = ivs /\
                  match form_payload data with
                  | Build_VaultItemPayload u p ur n =>
                      username x = u /\ password x = p /\ url x = ur /\ notes x = n
                  end) (items st'))).
Proof.
  intros Hr; unfold handleUpdateItem.
  destruct sel as [s0|].
  2:{ intros E; injection E as <- <- <-; split; [auto|]; intros s key Hs; discriminate. }
  destruct (encryptionKey st) as [key0|] eqn:Ek.
  2:{ intros E; injection E as <- <- <-; split; [auto|]; intros s key _ Hk; discriminate. }
  destruct (encrypt (stringifyForm data) key0 None rnd) as [[c ivs]|e] eqn:Ee.
  2:{ intros E; injection E as <- <- <-; split; [intros [H|H]; discriminate|].
      intros s key _ _; left; auto. }
  destruct remote as [[]|e].
  2:{ intros E; injection E as <- <- <-; split; [intros [H|H]; discriminate|].
      intros s key _ _; left; auto. }
  intros E; injection E as <- <- <-; split; [intros [H|H]; discriminate|].
  intros s key Hs Hk; injection Hs as <-; injection Hk as <-; right.
  exists c, ivs; split; [reflexivity|]; split; [reflexivity|].
  split; [exact (encrypt_opens _ _ _ _ _ _ Hr Ee)|]; split; [reflexivity|].
  simpl; apply Forall_forall; intros x Hx; apply in_map_iff in Hx as (y & <- & Hy).
  destruct (jsstring_eqb (id y) (id s0)) eqn:Ey.
  - intros _; unfold contentUpdate; destruct (form_payload data) as [u p ur n];
      simpl; repeat split.
  - intros E; rewrite E, jsstring_eqb_refl in Ey; discriminate.
Qed.

(** X13. The item [onAdd] caches gets the id [crypto.randomUUID()], not the
    id the database gives the inserted row.  So when those differ, deleting
    the new item from the page in the same session removes it from the page
    but leaves its row in the table. *)
Theorem add_then_delete_keeps_row (stringifyForm : ItemForm -> jsstring)
    (st : VaultState) (data : ItemForm) (rnd : list Z)
    (uuid n1 n2 n3 newId u : jsstring) (t : list ItemRow)
    (calls1 : list DbCall) (st1 : VaultState) :
  userId st = Some u -> encryptionKey st <> None ->
  onAdd stringifyForm st data rnd uuid n1 n2 n3 (Ok tt) = (calls1, Ok st1) ->
  uuid <> newId -> uuid <> [] ->
  (exists it, items st1 = it :: items st /\ id it = uuid) /\
  In {| row_id := newId; row_user_id := u |}
     (fold_left (applyCall newId) (calls1 ++ fst (fst (confirmDelete st1 (Some uuid)))) t) /\
  ~ In uuid (map (fun x : DecryptedVaultItem => id x)
                 (items (snd (fst (confirmDelete st1 (Some uuid)))))).
Proof.
  intros Hu Hk Hadd Hne Hnil; unfold onAdd in Hadd.
  destruct (encryptionKey st) as [key|]; [|congruence].
  destruct (encrypt (stringifyForm data) key None rnd) as [[c ivs]|e]; [|discriminate].
  destruct (form_payload data) as [pu pp pur pn].
  injection Hadd as <- <-.
  destruct uuid as [|z uuid']; [congruence|].
  split; [eexists; split; reflexivity|].
  split.
  - simpl; rewrite Hu; simpl.
    apply filter_In; split; [apply in_or_app; right; left; reflexivity|].
    unfold row_matches; simpl.
    rewrite (jsstring_eqb_false newId (z :: uuid')) by (intros E; apply Hne; symmetry; exact E).
    reflexivity.
  - simpl; rewrite jsstring_eqb_refl; simpl.
    intros Hin; apply in_map_iff in Hin as (x & Ex & Hx).
    apply filter_In in Hx as [_ Hx]; rewrite Ex, jsstring_eqb_refl in Hx; discriminate.
Qed.

(** X14. The idle timer locks an unlocked vault after 300 one-second ticks
    without activity, counted from the current idle count: the page's own
    five minutes, whatever the store's [autoLockMinutes] preference.  Before
    that the page is unchanged; at that tick the key, the salt and the
    items are cleared and no password stays revealed. *)
Theorem idle_timer_locks (st : VaultState) (rv : JsObject jsstring) (idle0 : Z) :
  isUnlocked st = true -> 0 <= idle0 < 300 ->
  (forall m, (m < Z.to_nat (300 - idle0))%nat ->
     runIdle (idle0, st, rv) (repeat Tick m) = (idle0 + Z.of_nat m, st, rv)) /\
  runIdle (idle0, st, rv) (repeat Tick (Z.to_nat (300 - idle0))) = (0, step st LockVault, []) /\
  isUnlocked (step st LockVault) = false /\ encryptionKey (step st LockVault) = None /\
  salt (step st LockVault) = None /\ items (step st LockVault) = [].
Proof.
  intros Hu Hi; split; [intros m Hm; apply idle_ticks; [exact Hu|lia..]|].
  split; [|repeat split].
  replace (Z.to_nat (300 - idle0)) with (Z.to_nat (299 - idle0) + 1)%nat by lia.
  rewrite repeat_app; unfold runIdle; rewrite fold_left_app.
  change (fold_left idleStep (repeat Tick (Z.to_nat (299 - idle0))) (idle0, st, rv))
    with (runIdle (idle0, st, rv) (repeat Tick (Z.to_nat (299 - idle0)))).
  rewrite idle_ticks by (exact Hu || lia).
  assert (Hk : Z.of_nat (Z.to_nat (299 - idle0)) = 299 - idle0) by lia.
  rewrite Hk; cbn [fold_left repeat]; unfold idleStep; rewrite Hu.
  unfold pageAutoLockMinutes.
  destruct (_ >=? _) eqn:E; [reflexivity|].
  exfalso; rewrite Z.geb_leb in E; apply Z.leb_gt in E; lia.
Qed.

(** X15. With an empty search box every cached item is shown, in order; and
    an item is always shown when the query is exactly its title or its
    username. *)
Theorem filteredItems_empty_or_exact (toLowerCase : jsstring -> jsstring)
    (its : list DecryptedVaultItem) :
  toLowerCase [] = [] ->
  filteredItems toLowerCase its [] = its /\
  (forall q it, In it its -> title it = q \/ username it = q ->
     In it (filteredItems toLowerCase its q)).
Proof.
  intros Hl; split.
  - unfold filteredItems; rewrite Hl.
    induction its as [|x xs IH]; [reflexivity|]; simpl; rewrite !includes_nil; simpl.
    f_equal; exact IH.
  - intros q it Hin Hq; unfold filteredItems; apply filter_In; split; [exact Hin|].
    destruct Hq as [<-| <-]; rewrite includes_refl; [reflexivity|apply orb_true_r].
Qed.

(** X16. [handleDeleteAccount] makes no call unless the confirmation text
    is exactly "DELETE", and keeps the store unless the account-deletion RPC
    succeeds; when it does, the store is logged out (no session, no key, no
    items) and the error is cleared. *)
Theorem handleDeleteAccount_effect (st : VaultState) (txt : jsstring)
    (err : option jsstring) (rpc : result unit) :
  (txt <> lit "DELETE" ->
   handleDeleteAccount st txt err rpc = ([], st, Some (lit "Please type DELETE to confirm."))) /\
  (forall e, rpc = Err e -> snd (fst (handleDeleteAccount st txt err rpc)) = st) /\
  (txt = lit "DELETE" -> rpc = Ok tt ->
   fst (fst (handleDeleteAccount st txt err rpc)) = [RpcDeleteUserAccount; SignOut] /\
   isAuthenticated (snd (fst (handleDeleteAccount st txt err rpc))) = false /\
   userId (snd (fst (handleDeleteAccount st txt err rpc))) = None /\
   encryptionKey (snd (fst (handleDeleteAccount st txt err rpc))) = None /\
   items (snd (fst (handleDeleteAccount st txt err rpc))) = [] /\
   snd (handleDeleteAccount st txt err rpc) = None).
Proof.
  unfold handleDeleteAccount; split; [|split].
  - intros Hne; rewrite jsstring_eqb_false by exact Hne; reflexivity.
  - intros e ->; destruct (negb (jsstring_eqb txt (lit "DELETE"))); reflexivity.
  - intros -> ->; rewrite jsstring_eqb_refl; repeat split.
Qed.

End ExtraPage.

(** ** The registration and sign-in pages *)

Section ExtraAuth.
Import AuthPages.
Context `{R : Runtime}.

(** X17. [handleLogin] calls [signInWithPassword] only after
    [get_user_salt] returned a non-empty salt and [deriveKeys] succeeded on
    it, and then with the user's email and the first 60 characters of the
    derived verifier, never with the typed password as such.  An RPC error
    or a null or empty salt ends with "Invalid login credentials" and no
    sign-in. *)
Theorem handleLogin_credential (email P : jsstring) (lenv : LoginEnv) :
  (forall e pw', In (SignInWithPassword e pw') (fst (handleLogin email P lenv)) ->
     e = email /\ exists s k V, env_userSalt lenv = Ok (Some s) /\ s <> [] /\
       deriveKeys P s = Ok (k, V) /\ pw' = firstn 60 V) /\
  ((env_userSalt lenv = Ok None \/ env_userSalt lenv = Ok (Some []) \/
    exists e, env_userSalt lenv = Err e) ->
   handleLogin email P lenv = ([RpcGetUserSalt email], Some invalidCredentials)).
Proof.
  split; [exact (login_signin_inv email P lenv)|].
  intros Hs; unfold handleLogin.
  destruct Hs as [->|[->|[e ->]]]; reflexivity.
Qed.

(** X18. After a successful registration with master password [P] by the
    second version of the registration page, the Supabase account was
    signed up with [P] itself and the profile stores the salt and verifier
    of [P].  A later sign-in with the same [P], where
    [get_user_salt] returns that salt, presents the first 60 characters of
    that verifier instead, so it can match the signed-up password only when
    [P] equals that prefix. *)
Theorem register_then_login_credentials (email P : jsstring) (renv : RegisterEnv)
    (lenv : LoginEnv) (calls : list AuthCall) (row : ProfileRow) :
  handleRegister true email P renv = (calls, None) ->
  In (UpsertProfile row) calls ->
  env_userSalt lenv = Ok (Some (row_kdf_salt row)) ->
  calls = [SignUp email P; UpsertProfile row] /\
  (exists k, deriveKeys P (row_kdf_salt row) = Ok (k, row_verifier_hash row)) /\
  (forall e pw', In (SignInWithPassword e pw') (fst (handleLogin email P lenv)) ->
     e = email /\ pw' = firstn 60 (row_verifier_hash row)) /\
  (row_kdf_salt row <> [] ->
   In (SignInWithPassword email (firstn 60 (row_verifier_hash row)))
      (fst (handleLogin email P lenv))).
Proof.
  intros Hreg Hin Hsalt; unfold handleRegister in Hreg; simpl negb in Hreg; cbv iota in Hreg.
  destruct (generateSalt (env_saltBytes renv)) as [salt|e]; [|discriminate].
  destruct (deriveKeys P salt) as [[k V]|e] eqn:Ed; [|discriminate].
  destruct (env_signUp renv) as [[uid|]|e]; try discriminate.
  destruct (env_upsert renv) as [[]|e]; [|discriminate].
  injection Hreg as <-.
  simpl in Hin; destruct Hin as [H|[H|[]]]; [discriminate|].
  injection H as <-; cbn [row_kdf_salt row_verifier_hash] in *.
  split; [reflexivity|]; split; [exists k; exact Ed|]; split.
  - intros e pw' Hs; destruct (login_signin_inv email P lenv e pw' Hs)
      as (-> & s & k' & V' & Es & _ & Ed' & ->).
    rewrite Hsalt in Es; injection Es as <-; rewrite Ed in Ed'; injection Ed' as _ <-.
    split; reflexivity.
  - intros Hne; unfold handleLogin; rewrite Hsalt.
    destruct salt as [|x s]; [congruence|]; rewrite Ed.
    destruct (env_signIn lenv); simpl; right; left; reflexivity.
Qed.

(** X19. With the first version of the registration page, the password the
    account is signed up with is the one [handleLogin] presents: after a
    successful registration with master password [P] and salt [s], a
    sign-in with the same [P], where [get_user_salt] returns [s], uses
    exactly the signed-up password, and it is attempted when [s] is not
    empty. *)
Theorem register_first_then_login (email P : jsstring) (renv : RegisterEnv)
    (lenv : LoginEnv) (calls : list AuthCall) (pw s : jsstring) :
  handleRegisterFirst email P renv = (calls, None) ->
  In (SignUpWithMetadata email pw s) calls ->
  env_userSalt lenv = Ok (Some s) ->
  (forall e pw', In (SignInWithPassword e pw') (fst (handleLogin email P lenv)) ->
     e = email /\ pw' = pw) /\
  (s <> [] -> In (SignInWithPassword email pw) (fst (handleLogin email P lenv))).
Proof.
  intros Hreg Hin Hsalt; unfold handleRegisterFirst in Hreg.
  destruct (generateSalt (env_saltBytes renv)) as [salt|e]; [|discriminate].
  destruct (deriveKeys P salt) as [[k V]|e] eqn:Ed; [|discriminate].
  destruct (env_signUp renv) as [[uid|]|e]; try discriminate.
  injection Hreg as <-.
  destruct Hin as [H|[]]; injection H as <- <-.
  split.
  - intros e pw' Hs; destruct (login_signin_inv email P lenv e pw' Hs)
      as (-> & s' & k' & V' & Es & _ & Ed' & ->).
    rewrite Hsalt in Es; injection Es as <-; rewrite Ed in Ed'; injection Ed' as _ <-.
    split; reflexivity.
  - intros Hne; unfold handleLogin; rewrite Hsalt.
    destruct salt as [|x s']; [congruence|]; rewrite Ed.
    destruct (env_signIn lenv); simpl; right; left; reflexivity.
Qed.

End ExtraAuth.

(** ** Witnesses of the further properties, run on [Mock.mockRuntime] *)

Section ExtraRuns.
Import VaultStore UnlockPage VaultPage Mock Examples PageExamples.

(** X1, witness: the nonce drawn is [rnd0]. *)
Lemma encrypt_decrypt_roundtrip_witness :
  @decrypt mockRuntime (0 :: rnd0 ++ [120; 120]) rnd0 false = Ok (lit "x").
Proof.
  exact (@encrypt_decrypt_roundtrip mockRuntime mockLaws (lit "x") false None rnd0 _ _
           (bytes_of_check rnd0 ltac:(vm_compute; reflexivity))
           ltac:(vm_compute; reflexivity)).
Defined.

(** X2, witness. *)
Lemma generateSalt_generateIV_decode_witness :
  exists s, @generateSalt mockRuntime salt0 = Ok s /\ base64ToBuffer s = Ok salt0.
Proof.
  exact (proj1 (@generateSalt_generateIV_decode mockRuntime mockLaws salt0
                  (bytes_of_check salt0 ltac:(vm_compute; reflexivity)))).
Defined.

(** X5, witness: twenty lowercase letters pass, nineteen do not. *)
Lemma handleContinue_length_vs_classes_witness :
  AuthPages.handleContinue (lit "correcthorsebatterys") (lit "correcthorsebatterys")
    = AuthPages.GoToWarning /\
  AuthPages.handleContinue (lit "correcthorsebattery") (lit "correcthorsebattery")
    <> AuthPages.GoToWarning.
Proof.
  split.
  - apply (proj1 handleContinue_length_vs_classes).
    apply Nat.leb_le; vm_compute; reflexivity.
  - apply (proj2 handleContinue_length_vs_classes).
    + vm_compute; repeat constructor.
    + apply Nat.ltb_lt; vm_compute; reflexivity.
Defined.

(** X6, witness: locked 1 ms before the lock ends at the first read, and
    reported as 0 minutes at the second read, when it has ended. *)
Lemma lockedFor_minutes_witness :
  exists t, failed_unlock_locked_until pLocked = Some t /\ 4999999 < t /\
    (0 - 1) * 60000 < t - 5000000 <= 0 * 60000 /\
    (5000000 <= 4999999 -> 1 <= 0) /\ (t <= 5000000 -> 0 <= 0).
Proof.
  exact (@lockedFor_minutes mockRuntime pLocked 4999999 5000000 0
           ltac:(vm_compute; reflexivity)).
Defined.

(** X7, witness. *)
Lemma store_add_then_remove_witness :
  items (step (step st1 (AddItem item2)) (RemoveItem (id item2))) = items st1.
Proof.
  exact (proj1 (@store_add_then_remove mockRuntime st1 item2
                  ltac:(vm_compute; intros [H|[]]; discriminate H))).
Defined.

(** X8, witness. *)
Lemma store_updateItem_keeps_ids_witness :
  map (fun x : DecryptedVaultItem => id x)
      (items (step st1 (UpdateItem (lit "item-1") (favoriteUpdate true))))
    = map (fun x : DecryptedVaultItem => id x) (items st1).
Proof.
  exact (proj1 (@store_updateItem_keeps_ids mockRuntime st1 (lit "item-1")
                  (favoriteUpdate true) eq_refl)).
Defined.

(** X9, witness: adding an item and locking never installs a key. *)
Lemma store_key_only_from_setUnlocked_witness :
  encryptionKey (run (step initialState (SetAuthenticated (lit "user-1") (lit "a@b.c")))
                     [AddItem item1; LockVault]) = None /\
  isUnlocked (run (step initialState (SetAuthenticated (lit "user-1") (lit "a@b.c")))
                  [AddItem item1; LockVault]) = false.
Proof.
  exact (@store_key_only_from_setUnlocked mockRuntime
           (step initialState (SetAuthenticated (lit "user-1") (lit "a@b.c")))
           [AddItem item1; LockVault] eq_refl eq_refl eq_refl).
Defined.

(** X11, witness: a failed favourite update keeps the store. *)
Lemma handleToggleFavorite_effect_witness :
  snd (handleToggleFavorite st1 (lit "item-1") false (Err OperationError)) = st1.
Proof.
  exact (proj1 (proj2 (@handleToggleFavorite_effect mockRuntime st1 (lit "item-1") false
                         (Err OperationError))) OperationError eq_refl).
Defined.

(** X12, witness: editing [item1] retitles it. *)
Lemma handleUpdateItem_effect_witness :
  Forall (fun x : DecryptedVaultItem => id x = id item1 -> title x = lit "New")
    (items (snd (fst (handleUpdateItem stringify1 st1 (Some item1) None form1 rnd0
                        (Ok tt) [] [])))).
Proof.
  set (r := handleUpdateItem stringify1 st1 (Some item1) None form1 rnd0 (Ok tt) [] []).
  destruct (@handleUpdateItem_effect mockRuntime mockLaws stringify1 st1 (Some item1)
              None form1 rnd0 (Ok tt) [] [] (fst (fst r)) (snd (fst r)) (snd r)
              (bytes_of_check rnd0 ltac:(vm_compute; reflexivity))
              ltac:(vm_compute; reflexivity)) as [_ H].
  destruct (H item1 false eq_refl eq_refl) as [[_ He]|(c & ivs & _ & _ & _ & _ & HF)].
  - vm_compute in He; discriminate He.
  - eapply Forall_impl; [|exact HF]; intros x Hx Hid; exact (proj1 (Hx Hid)).
Defined.

(** X13, witness: the row [row-9] stays after adding and deleting. *)
Lemma add_then_delete_keeps_row_witness :
  In {| row_id := lit "row-9"; row_user_id := lit "user-1" |}
     (fold_left (applyCall (lit "row-9"))
        (fst (onAdd stringify1 st1 form1 rnd0 (lit "uuid-1") [] [] [] (Ok tt))
         ++ fst (fst (confirmDelete
              (match snd (onAdd stringify1 st1 form1 rnd0 (lit "uuid-1") [] [] [] (Ok tt))
               with Ok s => s | Err _ => st1 end) (Some (lit "uuid-1")))))
        []).
Proof.
  exact (proj1 (proj2 (@add_then_delete_keeps_row mockRuntime stringify1 st1 form1 rnd0
           (lit "uuid-1") [] [] [] (lit "row-9") (lit "user-1") [] _ _
           ltac:(vm_compute; reflexivity) ltac:(vm_compute; discriminate)
           ltac:(vm_compute; reflexivity) ltac:(distinct_lits) ltac:(distinct_lits)))).
Defined.

(** X14, witness: ten seconds before the limit, ten ticks lock the vault. *)
Lemma idle_timer_locks_witness :
  runIdle (290, st1, []) (repeat Tick 10) = (0, step st1 LockVault, []).
Proof.
  exact (proj1 (proj2 (@idle_timer_locks mockRuntime st1 [] 290
                         ltac:(vm_compute; reflexivity) ltac:(lia)))).
Defined.

(** X15, witness. *)
Lemma filteredItems_empty_or_exact_witness :
  filteredItems asciiLower [item1; item2] [] = [item1; item2] /\
  In item2 (filteredItems asciiLower [item1; item2] (lit "Mail")).
Proof.
  destruct (filteredItems_empty_or_exact asciiLower [item1; item2] eq_refl) as [H1 H2].
  split; [exact H1|].
  apply H2; [right; left; reflexivity | left; reflexivity].
Defined.

(** X16, witness: a lowercase confirmation is refused. *)
Lemma handleDeleteAccount_effect_witness :
  handleDeleteAccount st1 (lit "delete") None (Ok tt)
    = ([], st1, Some (lit "Please type DELETE to confirm.")).
Proof.
  exact (proj1 (@handleDeleteAccount_effect mockRuntime st1 (lit "delete") None (Ok tt))
           ltac:(distinct_lits)).
Defined.

(** X17, witness: a [null] salt gives "Invalid login credentials". *)
Lemma handleLogin_credential_witness :
  AuthPages.handleLogin (lit "a@b.c") goodPw lenvNull
    = ([AuthPages.RpcGetUserSalt (lit "a@b.c")], Some AuthPages.invalidCredentials).
Proof.
  exact (proj2 (@handleLogin_credential mockRuntime (lit "a@b.c") goodPw lenvNull)
           (or_introl eq_refl)).
Defined.

(** X18, witness: registering [goodPw], then signing in with it. *)
Lemma register_then_login_credentials_witness :
  In (AuthPages.SignInWithPassword (lit "a@b.c")
        (firstn 60 (AuthPages.row_verifier_hash regRow1)))
     (fst (AuthPages.handleLogin (lit "a@b.c") goodPw lenv1)).
Proof.
  exact (proj2 (proj2 (proj2 (@register_then_login_credentials mockRuntime (lit "a@b.c")
           goodPw renv1 lenv1
           (fst (@AuthPages.handleRegister mockRuntime true (lit "a@b.c") goodPw renv1)) regRow1
           ltac:(vm_compute; reflexivity) ltac:(vm_compute; right; left; reflexivity)
           eq_refl)))
           ltac:(distinct_lits)).
Defined.

(** X19, witness: registering [goodPw] with the first version of the
    page, then signing in with it. *)
Lemma register_first_then_login_witness :
  In (AuthPages.SignInWithPassword (lit "a@b.c") regPw1)
     (fst (AuthPages.handleLogin (lit "a@b.c") goodPw lenvFirst)).
Proof.
  exact (proj2 (@register_first_then_login mockRuntime (lit "a@b.c") goodPw renv1
           lenvFirst (fst (@AuthPages.handleRegisterFirst mockRuntime (lit "a@b.c") goodPw renv1))
           regPw1 salt0
           ltac:(vm_compute; reflexivity) ltac:(vm_compute; left; reflexivity)
           eq_refl)
           ltac:(distinct_lits)).
Defined.

End ExtraRuns.
